(** * Lab configuration, network policy and credential selection

    A shallow embedding of [red_team/kali_mcp/src/config.ts]: the CIDR
    membership test ([isTargetAllowed], [isIpInCidr], [ipToNumber]), the
    schema validation of the lab configuration ([InstanceSchema],
    [DisabledInstanceSchema], [LabConfigSchema]), the discovery of the
    Terraform root ([findTerraformRoot]) and [selectCredentials].

    JavaScript values are modelled as the code uses them: a Number is an
    integer-valued double (or NaN, or an infinity), the 32-bit operators
    convert through ToInt32 / ToUint32 with their wrap-around written out,
    strings are sequences of 8-bit code units. *)

From Stdlib Require Import ZArith String Ascii List Bool Lia Permutation.
From Stdlib Require QArith.
Import ListNotations.

Local Open Scope string_scope.
Local Open Scope list_scope.
Local Open Scope Z_scope.

(* ================================================================== *)
(** * JavaScript numbers and the operators the module uses *)

Module JS.

(** Every Number that [ipToNumber] and [isIpInCidr] handle is NaN, an
    infinity, or an integer-valued double; the sign of zero is never
    observed by the operators below ([-0 + 0], [-0 >>> 0], [32 - (-0)]
    all give what [+0] gives), so zero is the single [Fin 0]. *)
Inductive number : Type :=
| NaN : number
| Inf (negative : bool) : number
| Fin (z : Z) : number.

(** Round a mathematical integer to the nearest double, ties to even
    (53-bit significand, overflow to an infinity from
    [2^1024 - 2^970] on). *)
Definition round_double (n : Z) : number :=
  let a := Z.abs n in
  if a <? 2 ^ 53 then Fin n
  else
    let e := Z.log2 a - 52 in
    let q := a / 2 ^ e in
    let r := a mod 2 ^ e in
    let half := 2 ^ (e - 1) in
    let q' := if (half <? r) || ((r =? half) && Z.odd q) then q + 1 else q in
    let v := q' * 2 ^ e in
    if 2 ^ 1024 <=? v then Inf (n <? 0) else Fin (Z.sgn n * v).

(** ToUint32 and ToInt32 of ECMAScript: NaN and the infinities give 0,
    any other value is taken modulo [2^32]. *)
Definition ToUint32 (x : number) : Z :=
  match x with
  | Fin z => z mod 2 ^ 32
  | _ => 0
  end.

Definition ToInt32 (x : number) : Z :=
  let m := ToUint32 x in
  if 2 ^ 31 <=? m then m - 2 ^ 32 else m.

(** [a + b] on doubles. *)
Definition add (a b : number) : number :=
  match a, b with
  | NaN, _ | _, NaN => NaN
  | Inf s, Inf t => if Bool.eqb s t then Inf s else NaN
  | Inf s, Fin _ | Fin _, Inf s => Inf s
  | Fin x, Fin y => round_double (x + y)
  end.

(** [a - b] on doubles. *)
Definition sub (a b : number) : number :=
  match a, b with
  | NaN, _ | _, NaN => NaN
  | Inf s, Inf t => if Bool.eqb s t then NaN else Inf s
  | Inf s, Fin _ => Inf s
  | Fin _, Inf s => Inf (negb s)
  | Fin x, Fin y => round_double (x - y)
  end.

(** [a << b]: the left operand through ToInt32, the shift count through
    ToUint32 and masked to its five low bits, the result wrapped to a
    signed 32-bit integer. *)
Definition shl (a b : number) : number :=
  Fin (ToInt32 (Fin (ToInt32 a * 2 ^ (ToUint32 b mod 32)))).

(** [a >>> b]: the left operand through ToUint32, zero-filling. *)
Definition ushr (a b : number) : number :=
  Fin (ToUint32 a / 2 ^ (ToUint32 b mod 32)).

(** [a & b]: both operands through ToInt32, bitwise and on the
    two's-complement representations. *)
Definition band (a b : number) : number :=
  Fin (Z.land (ToInt32 a) (ToInt32 b)).

(** [a === b] on Numbers: NaN equals nothing. *)
Definition strict_eq (a b : number) : bool :=
  match a, b with
  | Fin x, Fin y => x =? y
  | Inf s, Inf t => Bool.eqb s t
  | _, _ => false
  end.

Definition code (c : ascii) : Z := Z.of_N (N_of_ascii c).

Definition isDigit (c : ascii) : bool :=
  (48 <=? code c) && (code c <=? 57).

(** White space and line terminators among the 8-bit code units: TAB,
    LF, VT, FF, CR, SP and NBSP. *)
Definition isWhiteSpace (c : ascii) : bool :=
  let n := code c in
  ((9 <=? n) && (n <=? 13)) || (n =? 32) || (n =? 160).

Fixpoint trimStart (s : string) : string :=
  match s with
  | String c r => if isWhiteSpace c then trimStart r else s
  | EmptyString => EmptyString
  end.

Fixpoint takeDigits (s : string) : string :=
  match s with
  | String c r => if isDigit c then String c (takeDigits r) else EmptyString
  | EmptyString => EmptyString
  end.

(** The mathematical integer a string of decimal digits denotes. *)
Fixpoint digitsValue (acc : Z) (s : string) : Z :=
  match s with
  | String c r => digitsValue (acc * 10 + (code c - 48)) r
  | EmptyString => acc
  end.

(** [parseInt(input, 10)]: leading white space is dropped, one sign is
    read, then the longest run of decimal digits; no digit gives NaN.
    The integer is rounded to a double (the engine's exact conversion;
    ECMAScript lets an implementation zero the digits after the 20th). *)
Definition parseInt (input : string) : number :=
  let s := trimStart input in
  let '(sign, s) :=
    match s with
    | String "-" r => (-1, r)
    | String "+" r => (1, r)
    | _ => (1, s)
    end in
  match takeDigits s with
  | EmptyString => NaN
  | ds => round_double (sign * digitsValue 0 ds)
  end.

(** [s.split(sep)] for a one-character separator: never empty. *)
Fixpoint split (sep : ascii) (s : string) : list string :=
  match s with
  | EmptyString => [EmptyString]
  | String c r =>
      if Ascii.eqb c sep then EmptyString :: split sep r
      else
        match split sep r with
        | h :: t => String c h :: t
        | [] => [String c EmptyString]
        end
  end.

(** ToString of a value that is a string or [undefined]. *)
Definition ToString (v : option string) : string :=
  match v with
  | Some s => s
  | None => "undefined"
  end.

End JS.

(* ================================================================== *)
(** * Network policy: [isTargetAllowed], [isIpInCidr], [ipToNumber] *)

(** [ip.split('.').reduce((acc, octet) => (acc << 8) + parseInt(octet, 10), 0) >>> 0] *)
Definition ipToNumber (ip : string) : JS.number :=
  JS.ushr
    (fold_left (fun acc octet => JS.add (JS.shl acc (JS.Fin 8)) (JS.parseInt octet))
               (JS.split "." ip) (JS.Fin 0))
    (JS.Fin 0).

(** [isIpInCidr]: the destructuring [[network, prefixLength] = cidr.split('/')]
    leaves [prefixLength] undefined when the range has no slash. *)
Definition isIpInCidr (ip cidr : string) : bool :=
  let parts := JS.split "/" cidr in
  let network := nth 0 parts EmptyString in
  let prefixLength := nth_error parts 1 in
  let prefix := JS.parseInt (JS.ToString prefixLength) in
  let ipNum := ipToNumber ip in
  let networkNum := ipToNumber network in
  let mask :=
    JS.ushr (JS.shl (JS.Fin 4294967295) (JS.sub (JS.Fin 32) prefix)) (JS.Fin 0) in
  JS.strict_eq (JS.band ipNum mask) (JS.band networkNum mask).

(** The loop over [allowedCidrs], returning at the first range that matches. *)
Fixpoint isTargetAllowed (target : string) (allowedCidrs : list string) : bool :=
  match allowedCidrs with
  | [] => false
  | cidr :: rest =>
      if isIpInCidr target cidr then true else isTargetAllowed target rest
  end.

(** ** Address and range syntax, and the membership test as the design states it *)

Fixpoint all_digits (s : string) : bool :=
  match s with
  | String c r => JS.isDigit c && all_digits r
  | EmptyString => true
  end.

(** An octet of a dotted quad: one to three decimal digits, at most 255. *)
Definition valid_octet (s : string) : bool :=
  all_digits s && (1 <=? Z.of_nat (String.length s)) &&
  (Z.of_nat (String.length s) <=? 3) && (JS.digitsValue 0 s <=? 255).

(** A syntactically valid IPv4 address: four octets separated by dots. *)
Definition valid_ipv4 (s : string) : bool :=
  match JS.split "." s with
  | [a; b; c; d] => valid_octet a && valid_octet b && valid_octet c && valid_octet d
  | _ => false
  end.

(** A decimal prefix length between [lo] and 32. *)
Definition valid_prefix (lo : Z) (s : string) : bool :=
  all_digits s && (1 <=? Z.of_nat (String.length s)) &&
  (lo <=? JS.digitsValue 0 s) && (JS.digitsValue 0 s <=? 32).

(** A dotted-quad CIDR whose prefix length is at least [lo]. *)
Definition valid_cidr (lo : Z) (s : string) : bool :=
  match JS.split "/" s with
  | [network; prefixLength] => valid_ipv4 network && valid_prefix lo prefixLength
  | _ => false
  end.

(** Big-endian packing of four octets into a 32-bit unsigned integer. *)
Definition pack_be (a b c d : Z) : Z :=
  a * 2 ^ 24 + b * 2 ^ 16 + c * 2 ^ 8 + d.

Definition spec_address (s : string) : option Z :=
  match map (JS.digitsValue 0) (JS.split "." s) with
  | [a; b; c; d] => Some (pack_be a b c d)
  | _ => None
  end.

(** The mask of [prefix] leading one-bits in a 32-bit word, zero-extended. *)
Definition prefix_mask (prefix : Z) : Z :=
  Z.shiftl (Z.ones prefix) (32 - prefix).

(** The per-range test of the design: [(targetInt & mask) == (networkInt & mask)]. *)
Definition spec_in_range (target cidr : string) : bool :=
  match JS.split "/" cidr with
  | [network; prefixLength] =>
      match spec_address target, spec_address network with
      | Some targetInt, Some networkInt =>
          let mask := prefix_mask (JS.digitsValue 0 prefixLength) in
          Z.land targetInt mask =? Z.land networkInt mask
      | _, _ => false
      end
  | _ => false
  end.

(* ================================================================== *)
(** * Decoded JSON *)

(** What [JSON.parse] returns. An object is the list of its properties;
    a property is looked up by the first binding of its name. *)
#[warnings="-register-all"]
Inductive json : Type :=
| JNull : json
| JBool (b : bool) : json
| JNumber (q : QArith_base.Q) : json
| JString (s : string) : json
| JArray (items : list json) : json
| JObject (fields : list (string * json)) : json.

(** [obj[key]]: [None] stands for [undefined]. *)
Fixpoint get (fields : list (string * json)) (key : string) : option json :=
  match fields with
  | [] => None
  | (k, v) :: rest => if String.eqb k key then Some v else get rest key
  end.

(** The properties a [for ... in] visits: each name once. *)
Fixpoint own_properties (fields : list (string * json)) : list (string * json) :=
  match fields with
  | [] => []
  | (k, v) :: rest =>
      (k, v) :: filter (fun kv => negb (String.eqb (fst kv) k)) (own_properties rest)
  end.

(* ================================================================== *)
(** * The schema combinators of the validation library

    The schemas of [config.ts] are built from the combinators of the zod
    package (version 3). The package is a dependency, not part of the
    repository; the combinators below follow its parsing discipline: every
    schema parses its input to a status (valid, dirty or aborted) and adds
    the issues it finds to a shared list; an object parses all the fields
    of its shape before it merges their statuses, drops the keys its shape
    does not name, and is not [strict()] unless asked; a union returns the
    first option that is valid. *)

Module Zod.

Inductive segment : Type :=
| Key (k : string)
| Index (i : nat).

Definition path := list segment.

Inductive issue_code : Type :=
| invalid_type
| invalid_literal
| invalid_string.

(** An issue names its code and the path of the value it is about; the
    issue of a union none of whose options fits carries the issues of
    every option. *)
#[warnings="-register-all"]
Inductive issue : Type :=
| Issue (code : issue_code) (p : path)
| InvalidUnion (p : path) (unionErrors : list (list issue)).

Inductive parsed (A : Type) : Type :=
| OK (a : A)
| DIRTY (a : A)
| INVALID.
Arguments OK {A} a.
Arguments DIRTY {A} a.
Arguments INVALID {A}.

(** The issues added while parsing, and the status with its value. *)
Definition result (A : Type) : Type := (list issue * parsed A)%type.

Definition issues {A} (r : result A) : list issue := fst r.
Definition status {A} (r : result A) : parsed A := snd r.

(** A schema parses the value found at a path; [None] is [undefined]. *)
Definition schema (A : Type) : Type := path -> option json -> result A.

Definition pure {A} (a : A) : result A := ([], OK a).

Definition rmap {A B} (f : A -> B) (r : result A) : result B :=
  (issues r,
   match status r with
   | OK a => OK (f a)
   | DIRTY a => DIRTY (f a)
   | INVALID => INVALID
   end).

(** Merging the parses of two fields of one object: both have run, their
    issues add up; an aborted field aborts the object, a dirty one makes
    it dirty. *)
Definition ap {A B} (f : result (A -> B)) (x : result A) : result B :=
  (issues f ++ issues x,
   match status f, status x with
   | INVALID, _ | _, INVALID => INVALID
   | OK g, OK a => OK (g a)
   | OK g, DIRTY a | DIRTY g, OK a | DIRTY g, DIRTY a => DIRTY (g a)
   end).

Definition fail {A} (c : issue_code) (p : path) : result A :=
  ([Issue c p], INVALID).

(** [z.string()] *)
Definition string_ : schema string := fun p v =>
  match v with
  | Some (JString s) => pure s
  | _ => fail invalid_type p
  end.

(** [z.number()] *)
Definition number_ : schema QArith_base.Q := fun p v =>
  match v with
  | Some (JNumber q) => pure q
  | _ => fail invalid_type p
  end.

(** [z.boolean()] *)
Definition boolean_ : schema bool := fun p v =>
  match v with
  | Some (JBool b) => pure b
  | _ => fail invalid_type p
  end.

(** [z.literal(false)] *)
Definition literal_false : schema bool := fun p v =>
  match v with
  | Some (JBool false) => pure false
  | _ => fail invalid_literal p
  end.

(** [z.string().ip()]: a string that fails the address check is kept,
    with an issue, and the parse is dirty. *)
Definition string_ip (isValidIP : string -> bool) : schema string := fun p v =>
  match v with
  | Some (JString s) =>
      if isValidIP s then pure s else ([Issue invalid_string p], DIRTY s)
  | _ => fail invalid_type p
  end.

(** [inner.optional()] *)
Definition optional {A} (inner : schema A) : schema (option A) := fun p v =>
  match v with
  | None => pure None
  | Some _ => rmap Some (inner p v)
  end.

(** [inner.default(d)]: an absent value is replaced by [d], which the
    inner schema then accepts. *)
Definition default {A} (d : A) (inner : schema (option A)) : schema A := fun p v =>
  match v with
  | None => pure d
  | Some _ => rmap (fun o => match o with Some a => a | None => d end) (inner p v)
  end.

(** The elements of an array from index [i] on, all of them parsed. *)
Fixpoint elements {A} (elem : schema A) (p : path) (i : nat) (items : list json)
  : result (list A) :=
  match items with
  | [] => pure []
  | x :: rest =>
      ap (rmap cons (elem (p ++ [Index i]) (Some x))) (elements elem p (S i) rest)
  end.

(** [z.array(elem)] *)
Definition array {A} (elem : schema A) : schema (list A) := fun p v =>
  match v with
  | Some (JArray items) => elements elem p 0 items
  | _ => fail invalid_type p
  end.

Fixpoint entries {A} (value : schema A) (p : path) (props : list (string * json))
  : result (list (string * A)) :=
  match props with
  | [] => pure []
  | (k, x) :: rest =>
      ap (rmap (fun a t => (k, a) :: t) (value (p ++ [Key k]) (Some x)))
         (entries value p rest)
  end.

(** [z.record(value)]: every property of an object is parsed by [value]. *)
Definition record {A} (value : schema A) : schema (list (string * A)) := fun p v =>
  match v with
  | Some (JObject fields) => entries value p (own_properties fields)
  | _ => fail invalid_type p
  end.

(** The field [key] of the object being parsed at [p], by the schema the
    shape gives it. *)
Definition field {A} (p : path) (fields : list (string * json)) (key : string)
           (s : schema A) : result A :=
  s (p ++ [Key key]) (get fields key).

(** [z.object(shape)]: anything but an object aborts at once; [shape]
    says how the fields of an object are parsed and merged. *)
Definition object {A} (shape : path -> list (string * json) -> result A) : schema A :=
  fun p v =>
    match v with
    | Some (JObject fields) => shape p fields
    | _ => fail invalid_type p
    end.

(** The loop of [z.union(options)]: the first valid option is returned;
    failing that the first dirty one, with its issues; failing that one
    [invalid_union] issue with the issues of every option. *)
Fixpoint union_from {A} (options : list (schema A)) (p : path) (v : option json)
         (dirty : option (result A)) (errors : list (list issue)) : result A :=
  match options with
  | [] =>
      match dirty with
      | Some r => r
      | None => ([InvalidUnion p errors], INVALID)
      end
  | option :: rest =>
      let r := option p v in
      let errors' :=
        match issues r with
        | [] => errors
        | _ => errors ++ [issues r]
        end in
      match status r with
      | OK a => pure a
      | DIRTY _ =>
          union_from rest p v (match dirty with None => Some r | _ => dirty end) errors'
      | INVALID => union_from rest p v dirty errors'
      end
  end.

Definition union {A} (options : list (schema A)) : schema A := fun p v =>
  union_from options p v None [].

(** [schema.parse(data)]: the value when the status is valid, else the
    error thrown, which carries every issue found. *)
Definition parse {A} (s : schema A) (data : json) : A + list issue :=
  let r := s [] (Some data) in
  match status r with
  | OK a => inl a
  | _ => inr (issues r)
  end.

(** An issue and, for a union, the issues its options reported. *)
Fixpoint flatten_issue (i : issue) : list issue :=
  match i with
  | Issue _ _ => [i]
  | InvalidUnion _ errs =>
      i :: flat_map (fun l => flat_map flatten_issue l) errs
  end.

Definition flatten (l : list issue) : list issue := flat_map flatten_issue l.

Definition is_ok {A} (r : result A) : bool :=
  match status r with
  | OK _ => true
  | _ => false
  end.

(** A parse that is not valid and whose issues name [i], at the top or
    inside a union's issue. *)
Definition reports {A} (r : result A) (i : issue) : Prop :=
  is_ok r = false /\ In i (flatten (issues r)).

(** A parse is valid exactly when it added no issue. *)
Definition consistent {A} (r : result A) : Prop :=
  is_ok r = true <-> issues r = [].

(** A schema whose parse of an object is the same with or without a
    property whose name is not among [known]. *)
Definition ignores_unknown {A} (s : schema A) (known : list string) : Prop :=
  forall p fields1 fields2 k v,
    ~ In k known ->
    s p (Some (JObject (fields1 ++ (k, v) :: fields2)))
    = s p (Some (JObject (fields1 ++ fields2))).

End Zod.

(* ================================================================== *)
(** * The configuration model: [InstanceSchema], [DisabledInstanceSchema],
      [LabConfigSchema] *)

(** [z.infer<typeof InstanceSchema>] *)
Record Instance : Type := {
  public_ip : string;
  private_ip : string;
  ssh_key : string;
  ssh_user : string;
  instance_type : string;
  enabled : bool;
  ports : option (list (string * QArith_base.Q))
}.

(** The output of [DisabledInstanceSchema]: an object whose one property,
    [enabled], is the literal [false]. *)
Inductive DisabledInstance : Type :=
| Disabled.

(** The output of [z.union([InstanceSchema, DisabledInstanceSchema])]. *)
Inductive InstanceSlot : Type :=
| SlotInstance (i : Instance)
| SlotDisabled (d : DisabledInstance).

Record Lab : Type := {
  lab_name : string;
  lab_vpc_cidr : string;
  lab_project : option string;
  lab_environment : option string
}.

Record Instances : Type := {
  siem : InstanceSlot;
  victim : InstanceSlot;
  kali : InstanceSlot
}.

Record Network : Type := {
  net_vpc_cidr : string;
  net_subnet_cidr : string;
  net_allowed_ip : string
}.

Record MCPConfig : Type := {
  server_name : string;
  allowed_targets : list string;
  max_session_time : QArith_base.Q;
  audit_enabled : bool;
  log_level : string
}.

Record LabConfig : Type := {
  version : string;
  generated : string;
  lab : Lab;
  instances : Instances;
  network : Network;
  mcp : MCPConfig
}.

Notation "f <*> x" := (Zod.ap f x) (at level 61, left associativity).

Section Schemas.

(** The address check behind [z.string().ip()]; it belongs to the
    validation library and stays a parameter of the schemas. *)
Variable isValidIP : string -> bool.

Definition InstanceSchema : Zod.schema Instance :=
  Zod.object (fun p o =>
    Zod.pure Build_Instance
      <*> Zod.field p o "public_ip" (Zod.string_ip isValidIP)
      <*> Zod.field p o "private_ip" (Zod.string_ip isValidIP)
      <*> Zod.field p o "ssh_key" Zod.string_
      <*> Zod.field p o "ssh_user" Zod.string_
      <*> Zod.field p o "instance_type" Zod.string_
      <*> Zod.field p o "enabled" (Zod.default true (Zod.optional Zod.boolean_))
      <*> Zod.field p o "ports" (Zod.optional (Zod.record Zod.number_))).

Definition DisabledInstanceSchema : Zod.schema DisabledInstance :=
  Zod.object (fun p o =>
    Zod.pure (fun _ : bool => Disabled)
      <*> Zod.field p o "enabled" Zod.literal_false).

(** [z.union([InstanceSchema, DisabledInstanceSchema])], the schema of each
    of the three slots. *)
Definition InstanceSlotSchema : Zod.schema InstanceSlot :=
  Zod.union
    [ (fun p v => Zod.rmap SlotInstance (InstanceSchema p v));
      (fun p v => Zod.rmap SlotDisabled (DisabledInstanceSchema p v)) ].

Definition NetworkSchema : Zod.schema Network :=
  Zod.object (fun p o =>
    Zod.pure Build_Network
      <*> Zod.field p o "vpc_cidr" Zod.string_
      <*> Zod.field p o "subnet_cidr" Zod.string_
      <*> Zod.field p o "allowed_ip" Zod.string_).

Definition MCPConfigSchema : Zod.schema MCPConfig :=
  Zod.object (fun p o =>
    Zod.pure Build_MCPConfig
      <*> Zod.field p o "server_name" Zod.string_
      <*> Zod.field p o "allowed_targets" (Zod.array Zod.string_)
      <*> Zod.field p o "max_session_time" Zod.number_
      <*> Zod.field p o "audit_enabled" Zod.boolean_
      <*> Zod.field p o "log_level" Zod.string_).

Definition LabSchema : Zod.schema Lab :=
  Zod.object (fun p o =>
    Zod.pure Build_Lab
      <*> Zod.field p o "name" Zod.string_
      <*> Zod.field p o "vpc_cidr" Zod.string_
      <*> Zod.field p o "project" (Zod.optional Zod.string_)
      <*> Zod.field p o "environment" (Zod.optional Zod.string_)).

Definition InstancesSchema : Zod.schema Instances :=
  Zod.object (fun p o =>
    Zod.pure Build_Instances
      <*> Zod.field p o "siem" InstanceSlotSchema
      <*> Zod.field p o "victim" InstanceSlotSchema
      <*> Zod.field p o "kali" InstanceSlotSchema).

Definition LabConfigSchema : Zod.schema LabConfig :=
  Zod.object (fun p o =>
    Zod.pure Build_LabConfig
      <*> Zod.field p o "version" Zod.string_
      <*> Zod.field p o "generated" Zod.string_
      <*> Zod.field p o "lab" LabSchema
      <*> Zod.field p o "instances" InstancesSchema
      <*> Zod.field p o "network" NetworkSchema
      <*> Zod.field p o "mcp" MCPConfigSchema).

(** [LabConfigSchema.parse(configJson)] in [loadLabConfig]. *)
Definition LabConfigSchema_parse (configJson : json) : LabConfig + list Zod.issue :=
  Zod.parse LabConfigSchema configJson.

End Schemas.

(* ================================================================== *)
(** * Root discovery: [findTerraformRoot] *)

(** An absolute path is the list of its components, the root the empty
    list; [resolve(dir, name, ...)] appends components and [dirname]
    drops the last one (the root is its own parent). The messages the
    function writes to the error stream are not modelled. *)
Definition fspath := list string.

Definition resolve (dir : fspath) (names : list string) : fspath := dir ++ names.

Definition dirname (p : fspath) : fspath := removelast p.

Definition fspath_eqb (a b : fspath) : bool :=
  if list_eq_dec string_dec a b then true else false.

Definition knownLocations : list fspath :=
  [ ["home"; "atomik"; "src"; "aptl"];
    ["home"; "atomik"; "src"; "aptl"; "infrastructure"] ].

Definition maxDepth : nat := 10.

(** The two errors the module throws itself: "Could not find Terraform
    root directory. ... Starting directory was: <cwd>." and "Kali instance
    not available for SSH operations". *)
Inductive Error : Type :=
| TerraformRootNotFound (startingDirectory : fspath)
| KaliNotAvailable.

Section Discovery.

(** The file system as [existsSync] sees it. *)
Variable existsSync : fspath -> bool.

(** The loop over [knownLocations]. *)
Fixpoint checkKnown (locations : list fspath) : option fspath :=
  match locations with
  | [] => None
  | location :: rest =>
      if existsSync location then
        let mainTf := resolve location ["main.tf"] in
        let outputsTf := resolve location ["outputs.tf"] in
        if existsSync mainTf || existsSync outputsTf then Some location
        else checkKnown rest
      else checkKnown rest
  end.

(** The upward walk; [fuel] is [maxDepth - depth]. *)
Fixpoint walkUp (fuel : nat) (currentDir : fspath) : option fspath :=
  match fuel with
  | O => None
  | S fuel' =>
      let mainTf := resolve currentDir ["main.tf"] in
      let outputsTf := resolve currentDir ["outputs.tf"] in
      let infraMainTf := resolve currentDir ["infrastructure"; "main.tf"] in
      let infraOutputsTf := resolve currentDir ["infrastructure"; "outputs.tf"] in
      if existsSync mainTf || existsSync outputsTf then Some currentDir
      else if existsSync infraMainTf || existsSync infraOutputsTf
      then Some (resolve currentDir ["infrastructure"])
      else
        let parentDir := dirname currentDir in
        if fspath_eqb parentDir currentDir then None
        else walkUp fuel' parentDir
  end.

(** [cwd] is [process.cwd()]. *)
Definition findTerraformRoot (cwd : fspath) : fspath + Error :=
  match checkKnown knownLocations with
  | Some location => inl location
  | None =>
      match walkUp maxDepth cwd with
      | Some root => inl root
      | None => inr (TerraformRootNotFound cwd)
      end
  end.

End Discovery.

(* ================================================================== *)
(** * Credential selection: [selectCredentials] *)

Record Credentials : Type := {
  sshKey : string;
  username : string
}.

(** ['ssh_key' in slot] *)
Definition has_ssh_key (slot : InstanceSlot) : bool :=
  match slot with
  | SlotInstance _ => true
  | SlotDisabled _ => false
  end.

(** The guard of each branch,
    ['ssh_key' in slot && (slot.public_ip === target || slot.private_ip === target)],
    with the instance it narrows the slot to. *)
Definition matching (slot : InstanceSlot) (target : string) : option Instance :=
  match slot with
  | SlotInstance i =>
      if String.eqb (public_ip i) target || String.eqb (private_ip i) target
      then Some i else None
  | SlotDisabled _ => None
  end.

Definition selectCredentials (target : string) (config : LabConfig)
           (defaultUsername : string) : Credentials + Error :=
  match matching (siem (instances config)) target with
  | Some s => inl {| sshKey := ssh_key s; username := ssh_user s |}
  | None =>
      match matching (victim (instances config)) target with
      | Some v => inl {| sshKey := ssh_key v; username := ssh_user v |}
      | None =>
          match matching (kali (instances config)) target with
          | Some k => inl {| sshKey := ssh_key k; username := ssh_user k |}
          | None =>
              match kali (instances config) with
              | SlotDisabled _ => inr KaliNotAvailable
              | SlotInstance k =>
                  inl {| sshKey := ssh_key k; username := defaultUsername |}
              end
          end
      end
  end.

(* ================================================================== *)
(** * The design's reading of selection and of a field-level violation *)

(** A slot matches a target when it is an [Instance] one of whose two
    addresses is the target. *)
Definition slot_matches (target : string) (slot : InstanceSlot) : bool :=
  match slot with
  | SlotInstance i => String.eqb (public_ip i) target || String.eqb (private_ip i) target
  | SlotDisabled _ => false
  end.

(** The slots in their fixed priority. *)
Definition slots_by_priority (config : LabConfig) : list InstanceSlot :=
  [ siem (instances config); victim (instances config); kali (instances config) ].

(** The same configuration with the [enabled] flag of every [Instance]
    slot rewritten by [f]. *)
Definition set_enabled (f : bool -> bool) (slot : InstanceSlot) : InstanceSlot :=
  match slot with
  | SlotInstance i =>
      SlotInstance {| public_ip := public_ip i; private_ip := private_ip i;
                      ssh_key := ssh_key i; ssh_user := ssh_user i;
                      instance_type := instance_type i; enabled := f (enabled i);
                      ports := ports i |}
  | SlotDisabled d => SlotDisabled d
  end.

Definition with_enabled (f : bool -> bool) (config : LabConfig) : LabConfig :=
  {| version := version config; generated := generated config; lab := lab config;
     instances := {| siem := set_enabled f (siem (instances config));
                     victim := set_enabled f (victim (instances config));
                     kali := set_enabled f (kali (instances config)) |};
     network := network config; mcp := mcp config |}.

(** The primitive kinds of the fields of the shape. *)
Inductive kind : Type :=
| KString
| KNumber
| KBoolean
| KArray
| KObject.

Definition has_kind (k : kind) (v : json) : bool :=
  match k, v with
  | KString, JString _ | KNumber, JNumber _ | KBoolean, JBool _
  | KArray, JArray _ | KObject, JObject _ => true
  | _, _ => false
  end.

(** The value found by following property names from the root. *)
Fixpoint at_path (v : json) (names : list string) : option json :=
  match names with
  | [] => Some v
  | name :: rest =>
      match v with
      | JObject fields =>
          match get fields name with
          | Some w => at_path w rest
          | None => None
          end
      | _ => None
      end
  end.

(** A field is in violation when the object that should hold it is there
    and the field is missing or of another kind ([required]), or is there
    with another kind (not [required]). *)
Definition violated (required : bool) (raw : json) (names : list string) (k : kind) : bool :=
  match at_path raw (removelast names) with
  | Some (JObject fields) =>
      match get fields (last names EmptyString) with
      | Some v => negb (has_kind k v)
      | None => required
      end
  | _ => false
  end.

(** The required fields of the configuration outside the instance slots. *)
Definition required_fields : list (list string * kind) :=
  [ (["version"], KString); (["generated"], KString);
    (["lab"], KObject); (["lab"; "name"], KString); (["lab"; "vpc_cidr"], KString);
    (["instances"], KObject);
    (["network"], KObject); (["network"; "vpc_cidr"], KString);
    (["network"; "subnet_cidr"], KString); (["network"; "allowed_ip"], KString);
    (["mcp"], KObject); (["mcp"; "server_name"], KString);
    (["mcp"; "allowed_targets"], KArray); (["mcp"; "max_session_time"], KNumber);
    (["mcp"; "audit_enabled"], KBoolean); (["mcp"; "log_level"], KString) ].

Definition optional_fields : list (list string * kind) :=
  [ (["lab"; "project"], KString); (["lab"; "environment"], KString) ].

(** The required fields of a fully specified instance. *)
Definition instance_fields : list (string * kind) :=
  [ ("public_ip", KString); ("private_ip", KString); ("ssh_key", KString);
    ("ssh_user", KString); ("instance_type", KString) ].

Definition slot_names : list string := ["siem"; "victim"; "kali"].

(** The names the top level of the shape knows. *)
Definition top_level_keys : list string :=
  ["version"; "generated"; "lab"; "instances"; "network"; "mcp"].

Definition keys (names : list string) : Zod.path := map Zod.Key names.

(** A candidate holds a marker file at its top level. *)
Definition has_marker (existsSync : fspath -> bool) (dir : fspath) : bool :=
  existsSync (resolve dir ["main.tf"]) || existsSync (resolve dir ["outputs.tf"]).

(** A candidate holds a marker file inside its [infrastructure] subdirectory. *)
Definition has_infra_marker (existsSync : fspath -> bool) (dir : fspath) : bool :=
  existsSync (resolve dir ["infrastructure"; "main.tf"])
  || existsSync (resolve dir ["infrastructure"; "outputs.tf"]).

Definition optional_instance_fields : list (string * kind) :=
  [ ("enabled", KBoolean); ("ports", KObject) ].

(** The names each object of the shape knows. *)
Definition lab_keys : list string := ["name"; "vpc_cidr"; "project"; "environment"].
Definition instances_keys : list string := ["siem"; "victim"; "kali"].
Definition network_keys : list string := ["vpc_cidr"; "subnet_cidr"; "allowed_ip"].
Definition mcp_keys : list string :=
  ["server_name"; "allowed_targets"; "max_session_time"; "audit_enabled"; "log_level"].
Definition instance_keys : list string :=
  ["public_ip"; "private_ip"; "ssh_key"; "ssh_user"; "instance_type"; "enabled"; "ports"].

(** A [ports] value that is absent, or an object all of whose properties
    are numbers. *)
Definition ports_ok (v : option json) : bool :=
  match v with
  | None => true
  | Some (JObject fields) =>
      forallb (fun kv => has_kind KNumber (snd kv)) (own_properties fields)
  | Some _ => false
  end.

(** A well-formed instance object, its [enabled] property apart: the five
    required strings are there, both addresses pass the address check, and
    [ports] is absent or maps names to numbers. *)
Definition well_formed_instance (isValidIP : string -> bool)
           (o : list (string * json)) : bool :=
  match get o "public_ip", get o "private_ip", get o "ssh_key",
        get o "ssh_user", get o "instance_type" with
  | Some (JString pub), Some (JString priv), Some (JString _),
    Some (JString _), Some (JString _) =>
      isValidIP pub && isValidIP priv && ports_ok (get o "ports")
  | _, _, _, _, _ => false
  end.

(* ================================================================== *)
(** * Sample data *)

(** Modelled from the spec: the address check of [z.string().ip()], which
    is code of the validation library; section 3 of the design gives it as
    IPv4 dotted-quad syntax, which is [valid_ipv4]. It instantiates the
    parameter of the schemas in the examples. The check of the library
    itself is not this one: called without a version, as here, it also
    admits IPv6 literals, and it refuses some octets written with leading
    zeros; no statement takes the two to be equal. *)
Definition sample_isValidIP : string -> bool := valid_ipv4.

Definition sample_instance (pub priv key user : string) : list (string * json) :=
  [ ("public_ip", JString pub); ("private_ip", JString priv);
    ("ssh_key", JString key); ("ssh_user", JString user);
    ("instance_type", JString "t3.large") ].

Definition sample_disabled : json := JObject [("enabled", JBool false)].

Definition sample_config (siemSlot victimSlot kaliSlot : json)
           (extra : list (string * json)) : json :=
  JObject
    ([ ("version", JString "1.0"); ("generated", JString "2025-01-01T00:00:00Z");
       ("lab", JObject [("name", JString "aptl"); ("vpc_cidr", JString "10.0.0.0/16")]);
       ("instances",
        JObject [("siem", siemSlot); ("victim", victimSlot); ("kali", kaliSlot)]);
       ("network",
        JObject [("vpc_cidr", JString "10.0.0.0/16"); ("subnet_cidr", JString "10.0.1.0/24");
                 ("allowed_ip", JString "203.0.113.7/32")]);
       ("mcp",
        JObject [("server_name", JString "kali-red-team");
                 ("allowed_targets", JArray [JString "10.0.1.0/24"]);
                 ("max_session_time", JNumber (QArith_base.Qmake 3600 1));
                 ("audit_enabled", JBool true); ("log_level", JString "info")]) ]
     ++ extra).

Definition sample_record (pub user : string) (on : bool) : Instance :=
  {| public_ip := pub; private_ip := "10.0.1.10"; ssh_key := "~/.ssh/" ++ user;
     ssh_user := user; instance_type := "t3.large"; enabled := on; ports := None |}.

Definition sample_slot (pub user : string) (on : bool) : InstanceSlot :=
  SlotInstance (sample_record pub user on).

Definition sample_lab (s v k : InstanceSlot) : LabConfig :=
  {| version := "1.0"; generated := "2025-01-01T00:00:00Z";
     lab := {| lab_name := "aptl"; lab_vpc_cidr := "10.0.0.0/16";
               lab_project := None; lab_environment := None |};
     instances := {| siem := s; victim := v; kali := k |};
     network := {| net_vpc_cidr := "10.0.0.0/16"; net_subnet_cidr := "10.0.1.0/24";
                   net_allowed_ip := "203.0.113.7/32" |};
     mcp := {| server_name := "kali-red-team"; allowed_targets := ["10.0.1.0/24"];
               max_session_time := QArith_base.Qmake 3600 1; audit_enabled := true;
               log_level := "info" |} |}.

(** A file system holding [/home/atomik/src/aptl/infrastructure] and the
    file [outputs.tf] in it. *)
Definition infra_fs (p : fspath) : bool :=
  existsb (fspath_eqb p)
    [ []; ["home"]; ["home"; "atomik"]; ["home"; "atomik"; "src"];
      ["home"; "atomik"; "src"; "aptl"];
      ["home"; "atomik"; "src"; "aptl"; "infrastructure"];
      ["home"; "atomik"; "src"; "aptl"; "infrastructure"; "outputs.tf"] ].

(** A file system holding one file,
    [/home/atomik/src/aptl/infrastructure/infrastructure/main.tf], and the
    directories above it. *)
Definition nested_infra_fs (p : fspath) : bool :=
  existsb (fspath_eqb p)
    [ []; ["home"]; ["home"; "atomik"]; ["home"; "atomik"; "src"];
      ["home"; "atomik"; "src"; "aptl"];
      ["home"; "atomik"; "src"; "aptl"; "infrastructure"];
      ["home"; "atomik"; "src"; "aptl"; "infrastructure"; "infrastructure"];
      ["home"; "atomik"; "src"; "aptl"; "infrastructure"; "infrastructure"; "main.tf"] ].

(* ================================================================== *)
(** * Loading: [loadLabConfig] and the expansion of key paths *)

(** [s.trimEnd()] and [s.trim()], on the white space of [JS.isWhiteSpace]. *)
Fixpoint trimEnd (s : string) : string :=
  match s with
  | EmptyString => EmptyString
  | String c r =>
      match trimEnd r with
      | EmptyString => if JS.isWhiteSpace c then EmptyString else String c EmptyString
      | r' => String c r'
      end
  end.

Definition trim (s : string) : string := trimEnd (JS.trimStart s).

(** [s.startsWith('~')] *)
Definition startsWithTilde (s : string) : bool :=
  match s with
  | String "~" _ => true
  | _ => false
  end.

(** What [JSON.parse] makes of a decoded value passed as its text: a
    string is the text itself, anything else goes through ToString. *)
Definition textOf (ToStringValue : json -> string) (v : json) : string :=
  match v with
  | JString s => s
  | _ => ToStringValue v
  end.

(** The error an [Error] thrown inside [loadLabConfig] is wrapped from:
    the one of [findTerraformRoot], the one of [execSync], the
    [SyntaxError] of either [JSON.parse], or the error of
    [LabConfigSchema.parse] with its issues. *)
Inductive LoadCause : Type :=
| Thrown (e : Error)
| CommandFailed (message : string)
| SyntaxError (message : string)
| ValidationError (issues : list Zod.issue).

(** "Failed to load lab configuration from Terraform: <message of the cause>" *)
Inductive LoadError : Type :=
| FailedToLoad (cause : LoadCause).

Section Loading.

(** [expandTilde] of [utils.js], which is not among the sources. *)
Variable expandTilde : string -> string.

(** One of the three statements
    [if ('ssh_key' in slot && slot.ssh_key.startsWith('~')) slot.ssh_key = expandTilde(slot.ssh_key)]. *)
Definition expandSlot (slot : InstanceSlot) : InstanceSlot :=
  match slot with
  | SlotInstance i =>
      if startsWithTilde (ssh_key i)
      then SlotInstance {| public_ip := public_ip i; private_ip := private_ip i;
                           ssh_key := expandTilde (ssh_key i); ssh_user := ssh_user i;
                           instance_type := instance_type i; enabled := enabled i;
                           ports := ports i |}
      else slot
  | SlotDisabled _ => slot
  end.

(** The expansion of the keys of the three slots, after validation. *)
Definition expandSshKeys (config : LabConfig) : LabConfig :=
  {| version := version config; generated := generated config; lab := lab config;
     instances := {| siem := expandSlot (siem (instances config));
                     victim := expandSlot (victim (instances config));
                     kali := expandSlot (kali (instances config)) |};
     network := network config; mcp := mcp config |}.

(** The collaborators of [loadLabConfig]: the file system and the working
    directory, [execSync] running [terraform output -json lab_config_json]
    in a directory (its output, or the message of the error it throws),
    [JSON.parse] (the value, or the message of its [SyntaxError]),
    ToString on a decoded value that is no string, and the address check
    of the schemas. Every error they throw is an [Error], so the branch
    "Unknown error loading lab configuration" is not reached. *)
Variable existsSync : fspath -> bool.
Variable cwd : fspath.
Variable execSync : fspath -> string + string.
Variable JSON_parse : string -> json + string.
Variable ToStringValue : json -> string.
Variable isValidIP : string -> bool.

Definition loadLabConfig : LabConfig + LoadError :=
  match findTerraformRoot existsSync cwd with
  | inr e => inr (FailedToLoad (Thrown e))
  | inl terraformRoot =>
      match execSync terraformRoot with
      | inr m => inr (FailedToLoad (CommandFailed m))
      | inl terraformOutput =>
          match JSON_parse (trim terraformOutput) with
          | inr m => inr (FailedToLoad (SyntaxError m))
          | inl outputData =>
              match JSON_parse (textOf ToStringValue outputData) with
              | inr m => inr (FailedToLoad (SyntaxError m))
              | inl configJson =>
                  match LabConfigSchema_parse isValidIP configJson with
                  | inr issues => inr (FailedToLoad (ValidationError issues))
                  | inl config => inl (expandSshKeys config)
                  end
              end
          end
      end
  end.

End Loading.

(* ================================================================== *)
(** * Further readings of the code *)

(** The big-endian value of a list of octets, of any length. *)
Definition octets_value (octets : list Z) : Z :=
  fold_left (fun acc o => acc * 256 + o) octets 0.

(** The decimal values of the dot-separated parts of a string. *)
Definition octet_values (s : string) : list Z :=
  map (JS.digitsValue 0) (JS.split "." s).

(** The character [c] occurs in [s]. *)
Fixpoint occurs (c : ascii) (s : string) : bool :=
  match s with
  | EmptyString => false
  | String d r => Ascii.eqb d c || occurs c r
  end.

(** The directory [k] levels above [dir]. *)
Definition ancestor (k : nat) (dir : fspath) : fspath := Nat.iter k dirname dir.

(** A directory the upward walk stops at: a marker at its top level or
    in its [infrastructure] subdirectory. *)
Definition walk_stops (existsSync : fspath -> bool) (dir : fspath) : bool :=
  has_marker existsSync dir || has_infra_marker existsSync dir.

(** The root the upward walk returns at a directory it stops at. *)
Definition root_at (existsSync : fspath -> bool) (dir : fspath) : fspath :=
  if has_marker existsSync dir then dir else resolve dir ["infrastructure"].

(** The file system with [main.tf] at the root directory only, and a
    working directory ten levels down. *)
Definition root_marker_fs (p : fspath) : bool := fspath_eqb p ["main.tf"].

Definition deep_cwd : fspath := ["a"; "b"; "c"; "d"; "e"; "f"; "g"; "h"; "i"; "j"].

(** Sample collaborators of [loadLabConfig]. *)
Definition sample_expandTilde (s : string) : string :=
  match s with
  | String "~" r => "/home/kali" ++ r
  | _ => s
  end.

(** The command prints the wrapper, a JSON string, with a final newline;
    decoding the wrapper gives the text of the payload, and decoding that
    gives the payload. *)
Definition sample_execSync (dir : fspath) : string + string :=
  inl (String "034" ("payload" ++ String "034" (String "010" EmptyString))).

Definition sample_payload : json :=
  sample_config
    (JObject (sample_instance "1.1.1.1" "10.0.1.10" "~/.ssh/siem" "siem"))
    sample_disabled
    (JObject (sample_instance "3.3.3.3" "10.0.1.10" "~/.ssh/kali" "kali")) [].

Definition sample_JSON_parse (text : string) : json + string :=
  if String.eqb text (String "034" ("payload" ++ String "034" EmptyString))
  then inl (JString "payload")
  else if String.eqb text "payload" then inl sample_payload
  else inr "Unexpected token".

Definition sample_ToStringValue (v : json) : string := "[object Object]".

(* ================================================================== *)
(** * Numbers: conversions on small values *)

(** The powers of two the conversions use, as numerals. *)
Ltac pow2 :=
  change (2 ^ 53) with 9007199254740992 in *;
  change (2 ^ 32) with 4294967296 in *;
  change (2 ^ 31) with 2147483648 in *;
  change (2 ^ 24) with 16777216 in *;
  change (2 ^ 16) with 65536 in *;
  change (2 ^ 8) with 256 in *.

Lemma round_double_small (n : Z) :
  Z.abs n < 2 ^ 53 -> JS.round_double n = JS.Fin n.
Proof.
  intros H. unfold JS.round_double. cbv zeta.
  destruct (Z.ltb_spec (Z.abs n) (2 ^ 53)); [reflexivity | pow2; lia].
Qed.

Lemma ToUint32_small (z : Z) :
  0 <= z < 2 ^ 32 -> JS.ToUint32 (JS.Fin z) = z.
Proof. intros H. simpl. apply Z.mod_small. exact H. Qed.

Lemma ToInt32_uint32 (z : Z) :
  0 <= z < 2 ^ 32 ->
  JS.ToInt32 (JS.Fin z) = if 2 ^ 31 <=? z then z - 2 ^ 32 else z.
Proof.
  intros H. unfold JS.ToInt32. rewrite ToUint32_small by exact H. reflexivity.
Qed.

Lemma ToInt32_small (z : Z) :
  0 <= z < 2 ^ 31 -> JS.ToInt32 (JS.Fin z) = z.
Proof.
  intros H. rewrite ToInt32_uint32 by (pow2; lia).
  destruct (Z.leb_spec (2 ^ 31) z); [pow2; lia | reflexivity].
Qed.

(** [acc << 8] on an accumulator below [2^24]: the product, seen through
    its low 32 bits. *)
Lemma shl8_wrap (x : Z) :
  0 <= x < 2 ^ 24 ->
  exists y, JS.shl (JS.Fin x) (JS.Fin 8) = JS.Fin y /\
            - 2 ^ 31 <= y < 2 ^ 31 /\ y mod 2 ^ 32 = x * 256.
Proof.
  intros H. unfold JS.shl.
  rewrite (ToInt32_small x) by (pow2; lia).
  change (JS.ToUint32 (JS.Fin 8) mod 32) with 8.
  eexists. split; [reflexivity|].
  unfold JS.ToInt32, JS.ToUint32. pow2.
  assert (Hm : (x * 256) mod 4294967296 = x * 256) by (apply Z.mod_small; lia).
  rewrite Hm.
  destruct (Z.leb_spec 2147483648 (x * 256)).
  - split; [lia|].
    replace (x * 256 - 4294967296) with (x * 256 + (-1) * 4294967296) by ring.
    rewrite Z.mod_add by lia. exact Hm.
  - split; [lia | exact Hm].
Qed.

Lemma shl8_small (x : Z) :
  0 <= x < 2 ^ 16 -> JS.shl (JS.Fin x) (JS.Fin 8) = JS.Fin (x * 256).
Proof.
  intros H. unfold JS.shl.
  rewrite (ToInt32_small x) by (pow2; lia).
  change (JS.ToUint32 (JS.Fin 8) mod 32) with 8.
  rewrite ToInt32_small by (pow2; lia). reflexivity.
Qed.

Lemma step_small (x d : Z) :
  0 <= x < 2 ^ 16 -> 0 <= d <= 255 ->
  JS.add (JS.shl (JS.Fin x) (JS.Fin 8)) (JS.Fin d) = JS.Fin (x * 256 + d).
Proof.
  intros Hx Hd. rewrite shl8_small by exact Hx. simpl.
  apply round_double_small. pow2. lia.
Qed.

Lemma step_last (x d : Z) :
  0 <= x < 2 ^ 24 -> 0 <= d <= 255 ->
  JS.ushr (JS.add (JS.shl (JS.Fin x) (JS.Fin 8)) (JS.Fin d)) (JS.Fin 0)
  = JS.Fin (x * 256 + d).
Proof.
  intros Hx Hd.
  destruct (shl8_wrap x Hx) as (y & -> & Hy & Hmod).
  simpl JS.add. rewrite round_double_small by (pow2; lia).
  unfold JS.ushr. change (JS.ToUint32 (JS.Fin 0) mod 32) with 0.
  change (2 ^ 0) with 1. rewrite Z.div_1_r. f_equal.
  unfold JS.ToUint32.
  rewrite <- Zplus_mod_idemp_l, Hmod.
  apply Z.mod_small. pow2. lia.
Qed.

(** ToInt32 of an unsigned 32-bit value copies bit 31 upward. *)
Lemma ToInt32_testbit (x i : Z) :
  0 <= x < 2 ^ 32 -> 0 <= i ->
  Z.testbit (JS.ToInt32 (JS.Fin x)) i = Z.testbit x (Z.min i 31).
Proof.
  intros Hx Hi. rewrite ToInt32_uint32 by exact Hx.
  destruct (Z.leb_spec (2 ^ 31) x) as [Hge | Hlt].
  - destruct (Z.lt_ge_cases i 32) as [Hlow | Hhigh].
    + rewrite Z.min_l by lia.
      rewrite <- (Z.mod_pow2_bits_low (x - 2 ^ 32) 32 i) by lia.
      replace (x - 2 ^ 32) with (x + (-1) * 2 ^ 32) by ring.
      rewrite Z.mod_add by (pow2; lia). rewrite Z.mod_small by exact Hx.
      reflexivity.
    + rewrite Z.min_r by lia.
      rewrite Z.bits_above_log2_neg.
      * symmetry. apply Z.testbit_true; [lia|].
        pow2. Z.div_mod_to_equations. lia.
      * pow2. lia.
      * apply Z.le_lt_trans with (Z.log2 (2 ^ 31 - 1)).
        -- apply Z.log2_le_mono. pow2. lia.
        -- change (Z.log2 (2 ^ 31 - 1)) with 30. lia.
  - destruct (Z.lt_ge_cases i 31) as [Hlow | Hhigh].
    + rewrite Z.min_l by lia. reflexivity.
    + rewrite Z.min_r by lia.
      assert (Hlog : Z.log2 x < 31).
      { apply Z.le_lt_trans with (Z.log2 (2 ^ 31 - 1)).
        - apply Z.log2_le_mono. pow2. lia.
        - change (Z.log2 (2 ^ 31 - 1)) with 30. lia. }
      rewrite !Z.bits_above_log2 by lia. reflexivity.
Qed.

Lemma land_uint32 (x m : Z) :
  0 <= x < 2 ^ 32 -> 0 <= m < 2 ^ 32 -> 0 <= Z.land x m < 2 ^ 32.
Proof.
  intros Hx Hm. split.
  - apply Z.land_nonneg. lia.
  - rewrite <- (Z.mod_small m (2 ^ 32)) by exact Hm.
    rewrite <- Z.land_ones by lia.
    rewrite Z.land_assoc, Z.land_ones by lia.
    apply Z.mod_pos_bound. pow2. lia.
Qed.

(** [&] on the signed views of two unsigned words is the signed view of
    their bitwise and. *)
Lemma land_ToInt32 (x m : Z) :
  0 <= x < 2 ^ 32 -> 0 <= m < 2 ^ 32 ->
  Z.land (JS.ToInt32 (JS.Fin x)) (JS.ToInt32 (JS.Fin m))
  = JS.ToInt32 (JS.Fin (Z.land x m)).
Proof.
  intros Hx Hm. apply Z.bits_inj'. intros i Hi.
  rewrite Z.land_spec, !ToInt32_testbit by (auto using land_uint32).
  rewrite Z.land_spec. reflexivity.
Qed.

Lemma ToInt32_inj (x y : Z) :
  0 <= x < 2 ^ 32 -> 0 <= y < 2 ^ 32 ->
  JS.ToInt32 (JS.Fin x) = JS.ToInt32 (JS.Fin y) -> x = y.
Proof.
  intros Hx Hy. rewrite !ToInt32_uint32 by assumption.
  destruct (Z.leb_spec (2 ^ 31) x), (Z.leb_spec (2 ^ 31) y); pow2; lia.
Qed.

(** The comparison of [isIpInCidr] on unsigned words is the comparison
    of the design. *)
Lemma band_strict_eq (x y m : Z) :
  0 <= x < 2 ^ 32 -> 0 <= y < 2 ^ 32 -> 0 <= m < 2 ^ 32 ->
  JS.strict_eq (JS.band (JS.Fin x) (JS.Fin m)) (JS.band (JS.Fin y) (JS.Fin m))
  = (Z.land x m =? Z.land y m).
Proof.
  intros Hx Hy Hm. unfold JS.strict_eq, JS.band.
  rewrite !land_ToInt32 by assumption.
  destruct (Z.eqb_spec (Z.land x m) (Z.land y m)) as [E | N].
  - rewrite E. apply Z.eqb_refl.
  - apply Z.eqb_neq. intros E. apply N.
    apply ToInt32_inj; auto using land_uint32.
Qed.

Ltac each_prefix p :=
  destruct p as [|p|p]; try lia;
  repeat match goal with
         | q : positive |- _ => destruct q as [q|q|]; try lia
         end.

(** The mask [(0xffffffff << (32 - prefix)) >>> 0] for a prefix between 1
    and 32 has [prefix] leading one-bits. *)
Lemma code_mask_prefix (p : Z) :
  1 <= p <= 32 ->
  JS.ushr (JS.shl (JS.Fin 4294967295) (JS.sub (JS.Fin 32) (JS.Fin p))) (JS.Fin 0)
  = JS.Fin (prefix_mask p).
Proof.
  intros H. each_prefix p; vm_compute; reflexivity.
Qed.

Lemma prefix_mask_range (p : Z) :
  1 <= p <= 32 -> 0 <= prefix_mask p < 2 ^ 32.
Proof.
  intros H. each_prefix p; vm_compute; split; congruence.
Qed.

(** [prefix_mask p] sets exactly the [p] high bits of a 32-bit word. *)
Lemma prefix_mask_bits (p i : Z) :
  0 <= p <= 32 -> 0 <= i ->
  Z.testbit (prefix_mask p) i = (32 - p <=? i) && (i <? 32).
Proof.
  intros Hp Hi. unfold prefix_mask.
  rewrite Z.shiftl_spec by exact Hi.
  destruct (Z.leb_spec (32 - p) i) as [Hle | Hlt]; cbn [andb].
  - destruct (Z.ltb_spec i 32).
    + apply Z.ones_spec_low. lia.
    + apply Z.ones_spec_high. lia.
  - apply Z.testbit_neg_r. lia.
Qed.

(** The mask the code builds for prefix 0 is the all-one word: the shift
    count 32 is taken modulo 32. *)
Lemma code_mask_zero :
  JS.ushr (JS.shl (JS.Fin 4294967295) (JS.sub (JS.Fin 32) (JS.Fin 0))) (JS.Fin 0)
  = JS.Fin 4294967295.
Proof. vm_compute. reflexivity. Qed.

(* ================================================================== *)
(** * Strings of digits *)

Lemma isDigit_value (c : ascii) :
  JS.isDigit c = true -> 0 <= JS.code c - 48 <= 9.
Proof. unfold JS.isDigit. intros H. apply andb_prop in H. lia. Qed.

Lemma digitsValue_nonneg (s : string) :
  forall acc, 0 <= acc -> all_digits s = true -> 0 <= JS.digitsValue acc s.
Proof.
  induction s as [|c r IH]; intros acc Hacc H; simpl in *.
  - exact Hacc.
  - apply andb_prop in H. destruct H as [Hc Hr].
    apply IH; [|exact Hr]. apply isDigit_value in Hc. lia.
Qed.

Lemma takeDigits_all_digits (s : string) :
  all_digits s = true -> JS.takeDigits s = s.
Proof.
  induction s as [|c r IH]; simpl; intros H.
  - reflexivity.
  - apply andb_prop in H. destruct H as [Hc Hr].
    rewrite Hc, IH by exact Hr. reflexivity.
Qed.

Lemma trimStart_digit (c : ascii) (r : string) :
  JS.isDigit c = true -> JS.trimStart (String c r) = String c r.
Proof.
  intros H. apply isDigit_value in H. simpl.
  replace (JS.isWhiteSpace c) with false; [reflexivity|].
  symmetry. unfold JS.isWhiteSpace.
  repeat (apply orb_false_intro); try apply andb_false_intro2; lia.
Qed.

(** [parseInt] on a non-empty string of digits reads all of it. *)
Lemma parseInt_digits (s : string) :
  all_digits s = true -> s <> EmptyString ->
  JS.parseInt s = JS.round_double (JS.digitsValue 0 s).
Proof.
  intros H Hne. destruct s as [|c r]; [congruence|].
  simpl in H. apply andb_prop in H. destruct H as [Hc Hr].
  unfold JS.parseInt. rewrite trimStart_digit by exact Hc.
  assert (Hsign :
    match String c r with
    | String "-" r' => (-1, r')
    | String "+" r' => (1, r')
    | _ => (1, String c r)
    end = (1, String c r)).
  { destruct c as [[] [] [] [] [] [] [] []]; try reflexivity;
      vm_compute in Hc; discriminate Hc. }
  rewrite Hsign.
  rewrite takeDigits_all_digits by (simpl; rewrite Hc, Hr; reflexivity).
  rewrite Z.mul_1_l. reflexivity.
Qed.

(* ================================================================== *)
(** * Network policy *)

Lemma valid_octet_parse (s : string) :
  valid_octet s = true ->
  JS.parseInt s = JS.Fin (JS.digitsValue 0 s) /\ 0 <= JS.digitsValue 0 s <= 255.
Proof.
  unfold valid_octet. intros H.
  repeat (apply andb_prop in H; destruct H as [H ?]).
  assert (0 <= JS.digitsValue 0 s) by (apply digitsValue_nonneg; [lia | exact H]).
  split; [|lia].
  rewrite parseInt_digits; [| exact H | destruct s; [simpl in *; lia | congruence]].
  apply round_double_small. pow2. lia.
Qed.

(** On a valid dotted quad [ipToNumber] is the big-endian packing. *)
Lemma ipToNumber_valid (s : string) :
  valid_ipv4 s = true ->
  exists n, spec_address s = Some n /\ ipToNumber s = JS.Fin n /\ 0 <= n < 2 ^ 32.
Proof.
  unfold valid_ipv4, spec_address, ipToNumber.
  destruct (JS.split "." s) as [|a [|b [|c [|d [|e l]]]]]; try discriminate.
  intros H.
  apply andb_prop in H. destruct H as [H Hd].
  apply andb_prop in H. destruct H as [H Hc].
  apply andb_prop in H. destruct H as [Ha Hb].
  destruct (valid_octet_parse a Ha) as [Pa Ra].
  destruct (valid_octet_parse b Hb) as [Pb Rb].
  destruct (valid_octet_parse c Hc) as [Pc Rc].
  destruct (valid_octet_parse d Hd) as [Pd Rd].
  cbn [map fold_left]. rewrite Pa, Pb, Pc, Pd.
  set (va := JS.digitsValue 0 a) in *. set (vb := JS.digitsValue 0 b) in *.
  set (vc := JS.digitsValue 0 c) in *. set (vd := JS.digitsValue 0 d) in *.
  rewrite (step_small 0 va) by (pow2; lia).
  rewrite (step_small (0 * 256 + va) vb) by (pow2; lia).
  rewrite (step_small ((0 * 256 + va) * 256 + vb) vc) by (pow2; lia).
  rewrite step_last by (pow2; lia).
  exists (pack_be va vb vc vd). unfold pack_be. pow2.
  split; [reflexivity|]. split; [f_equal; ring | lia].
Qed.

Lemma valid_prefix_parse (lo : Z) (s : string) :
  valid_prefix lo s = true ->
  JS.parseInt s = JS.Fin (JS.digitsValue 0 s) /\ lo <= JS.digitsValue 0 s <= 32.
Proof.
  unfold valid_prefix. intros H.
  repeat (apply andb_prop in H; destruct H as [H ?]).
  assert (0 <= JS.digitsValue 0 s) by (apply digitsValue_nonneg; [lia | exact H]).
  split; [|lia].
  rewrite parseInt_digits; [| exact H | destruct s; [simpl in *; lia | congruence]].
  apply round_double_small. pow2. lia.
Qed.

(** On a valid target and a valid range with a prefix from 1 to 32,
    [isIpInCidr] is the comparison of the design. *)
Lemma isIpInCidr_valid (target cidr : string) :
  valid_ipv4 target = true -> valid_cidr 1 cidr = true ->
  isIpInCidr target cidr = spec_in_range target cidr.
Proof.
  intros Ht Hc. unfold valid_cidr in Hc. unfold isIpInCidr, spec_in_range.
  destruct (JS.split "/" cidr) as [|network [|prefixLength [|x l]]]; try discriminate.
  apply andb_prop in Hc. destruct Hc as [Hn Hp].
  destruct (ipToNumber_valid target Ht) as (t & -> & -> & Rt).
  destruct (ipToNumber_valid network Hn) as (n & En & Nn & Rn).
  destruct (valid_prefix_parse 1 prefixLength Hp) as [Pp Rp].
  cbn [nth nth_error JS.ToString]. rewrite En, Nn, Pp.
  cbv zeta. rewrite code_mask_prefix by exact Rp.
  apply band_strict_eq; auto using prefix_mask_range.
Qed.

Lemma isTargetAllowed_existsb (target : string) (ranges : list string) :
  isTargetAllowed target ranges = existsb (isIpInCidr target) ranges.
Proof.
  induction ranges as [|r rest IH]; simpl.
  - reflexivity.
  - rewrite IH. destruct (isIpInCidr target r); reflexivity.
Qed.

(** C2. For a syntactically valid dotted-quad target and ranges that are
    valid dotted-quad CIDRs with a prefix between 1 and 32,
    [isTargetAllowed] is true exactly when some range of the list
    satisfies [(targetInt & mask) == (networkInt & mask)], the addresses
    packed big-endian into 32 bits and the mask made of [prefix] leading
    one-bits; 10.0.1.5 is inside 10.0.1.0/24 and 10.0.2.5 is outside. *)
Theorem isTargetAllowed_valid_ranges :
  (forall (target : string) (ranges : list string),
      valid_ipv4 target = true ->
      Forall (fun r => valid_cidr 1 r = true) ranges ->
      (isTargetAllowed target ranges = true <->
       exists r, In r ranges /\ spec_in_range target r = true))
  /\ isTargetAllowed "10.0.1.5" ["10.0.1.0/24"] = true
  /\ isTargetAllowed "10.0.2.5" ["10.0.1.0/24"] = false.
Proof.
  split; [| split; vm_compute; reflexivity].
  intros target ranges Ht Hr.
  rewrite isTargetAllowed_existsb, existsb_exists.
  rewrite Forall_forall in Hr.
  split; intros (r & Hin & Hm); exists r; split; trivial.
  - rewrite <- isIpInCidr_valid; auto.
  - rewrite isIpInCidr_valid; auto.
Qed.

Lemma isTargetAllowed_valid_ranges_witness :
  isTargetAllowed "192.168.7.9" ["10.0.1.0/24"; "192.168.0.0/16"] = true <->
  exists r, In r ["10.0.1.0/24"; "192.168.0.0/16"] /\
            spec_in_range "192.168.7.9" r = true.
Proof.
  apply (proj1 isTargetAllowed_valid_ranges "192.168.7.9"
               ["10.0.1.0/24"; "192.168.0.0/16"]).
  - vm_compute. reflexivity.
  - repeat constructor.
Defined.

(** C1. With the single range 0.0.0.0/0 the code builds the all-one mask
    (the shift count 32 wraps to 0), so a valid target is allowed only
    when it is 0.0.0.0 itself: 10.0.1.5 is refused. *)
Theorem isTargetAllowed_prefix_zero :
  isTargetAllowed "10.0.1.5" ["0.0.0.0/0"] = false
  /\ forall target n,
       valid_ipv4 target = true -> spec_address target = Some n ->
       isTargetAllowed target ["0.0.0.0/0"] = (n =? 0).
Proof.
  split; [vm_compute; reflexivity|].
  intros target n Ht Hn.
  destruct (ipToNumber_valid target Ht) as (t & Et & Nt & Rt).
  rewrite Hn in Et. injection Et as <-.
  cbn [isTargetAllowed]. unfold isIpInCidr.
  change (JS.split "/" "0.0.0.0/0") with ["0.0.0.0"; "0"].
  cbn [nth nth_error JS.ToString]. rewrite Nt.
  change (JS.parseInt "0") with (JS.Fin 0). rewrite code_mask_zero.
  change (ipToNumber "0.0.0.0") with (JS.Fin 0).
  rewrite band_strict_eq by (pow2; lia).
  change 4294967295 with (Z.ones 32). rewrite !Z.land_ones by lia.
  rewrite Z.mod_small by exact Rt. rewrite Z.mod_0_l by (pow2; lia).
  destruct (n =? 0); reflexivity.
Qed.

Lemma isTargetAllowed_prefix_zero_witness :
  isTargetAllowed "10.0.1.5" ["0.0.0.0/0"] = (167772421 =? 0).
Proof.
  apply (proj2 isTargetAllowed_prefix_zero "10.0.1.5" 167772421).
  - vm_compute. reflexivity.
  - vm_compute. reflexivity.
Defined.

(** C8, as the code has it. [isTargetAllowed] returns a boolean on every
    target and every list of ranges, and the boolean is true exactly when
    some range of the list passes the comparison of [isIpInCidr]. A range
    that is no CIDR goes through the same comparison as any other: it
    aborts nothing, and it can match as well as fail to match ("garbage"
    matches 0.0.0.0 and does not match 10.0.1.5). *)
Theorem isTargetAllowed_total_any :
  (forall (target : string) (ranges : list string),
      exists b : bool,
        isTargetAllowed target ranges = b /\
        (b = true <-> exists r, In r ranges /\ isIpInCidr target r = true))
  /\ valid_cidr 0 "garbage" = false
  /\ isTargetAllowed "0.0.0.0" ["garbage"] = true
  /\ isTargetAllowed "10.0.1.5" ["garbage"] = false.
Proof.
  split; [| repeat split; vm_compute; reflexivity].
  intros target ranges. eexists. split; [reflexivity|].
  rewrite isTargetAllowed_existsb. apply existsb_exists.
Qed.

(** C8 fails as stated: a range that is no CIDR at all, or one whose
    prefix is out of range, still matches. The octets of "garbage" read
    as NaN and pack to 0, its missing prefix gives the all-one mask, so it
    matches 0.0.0.0; the prefix 40 shifts by [-8 mod 32 = 24] and acts as
    a /8. *)
Lemma unparsable_range_matches :
  valid_cidr 0 "garbage" = false
  /\ isTargetAllowed "0.0.0.0" ["garbage"] = true
  /\ valid_cidr 0 "10.0.0.0/40" = false
  /\ isTargetAllowed "10.9.9.9" ["10.0.0.0/40"] = true.
Proof. repeat split; vm_compute; reflexivity. Qed.

(* ================================================================== *)
(** * Credential selection *)

Lemma matching_slot_matches (slot : InstanceSlot) (target : string) :
  slot_matches target slot = true <-> exists i, matching slot target = Some i.
Proof.
  destruct slot as [i | d]; simpl.
  - destruct (String.eqb (public_ip i) target || String.eqb (private_ip i) target).
    + split; eauto.
    + split; [discriminate | intros (j & Hj); discriminate].
  - split; [discriminate | intros (j & Hj); discriminate].
Qed.

Lemma matching_instance (slot : InstanceSlot) (target : string) (i : Instance) :
  matching slot target = Some i ->
  slot = SlotInstance i /\ slot_matches target slot = true.
Proof.
  destruct slot as [j | d]; simpl; [|discriminate].
  destruct (String.eqb (public_ip j) target || String.eqb (private_ip j) target);
    [|discriminate].
  intros H. injection H as ->. auto.
Qed.

Lemma matching_none (slot : InstanceSlot) (target : string) :
  slot_matches target slot = false -> matching slot target = None.
Proof.
  destruct slot as [j | d]; simpl; [|reflexivity].
  intros ->. reflexivity.
Qed.

Lemma matching_some (i : Instance) (target : string) :
  slot_matches target (SlotInstance i) = true ->
  matching (SlotInstance i) target = Some i.
Proof. simpl. intros ->. reflexivity. Qed.

(** The first slot in priority order that matches decides the outcome. *)
Lemma first_match_decides (target : string) (config : LabConfig)
      (defaultUsername : string) (slot : InstanceSlot) :
  find (slot_matches target) (slots_by_priority config) = Some slot ->
  exists i, slot = SlotInstance i /\
            selectCredentials target config defaultUsername
            = inl {| sshKey := ssh_key i; username := ssh_user i |}.
Proof.
  unfold slots_by_priority, selectCredentials. cbn [find].
  destruct (slot_matches target (siem (instances config))) eqn:Es.
  { intros H. injection H as <-.
    apply matching_slot_matches in Es. destruct Es as (i & Hi).
    rewrite Hi. exists i. split; [apply (matching_instance _ _ _ Hi) | reflexivity]. }
  rewrite (matching_none _ _ Es).
  destruct (slot_matches target (victim (instances config))) eqn:Ev.
  { intros H. injection H as <-.
    apply matching_slot_matches in Ev. destruct Ev as (i & Hi).
    rewrite Hi. exists i. split; [apply (matching_instance _ _ _ Hi) | reflexivity]. }
  rewrite (matching_none _ _ Ev).
  destruct (slot_matches target (kali (instances config))) eqn:Ek.
  { intros H. injection H as <-.
    apply matching_slot_matches in Ek. destruct Ek as (i & Hi).
    rewrite Hi. exists i. split; [apply (matching_instance _ _ _ Hi) | reflexivity]. }
  discriminate.
Qed.

(** C3. The first slot, in the order siem, victim, kali, that is an
    [Instance] with the target as its public or private address decides:
    its own key and its own user are returned, whatever the later slots
    hold; a [DisabledInstance] slot never matches. In particular, with
    three [Instance] slots and the target equal to siem's public address,
    siem's key and user are returned. *)
Theorem selectCredentials_first_match :
  (forall target config defaultUsername slot,
      find (slot_matches target) (slots_by_priority config) = Some slot ->
      exists i, slot = SlotInstance i /\
                selectCredentials target config defaultUsername
                = inl {| sshKey := ssh_key i; username := ssh_user i |})
  /\ (forall target d, slot_matches target (SlotDisabled d) = false)
  /\ (forall target config defaultUsername s v k,
        siem (instances config) = SlotInstance s ->
        victim (instances config) = SlotInstance v ->
        kali (instances config) = SlotInstance k ->
        public_ip s = target ->
        selectCredentials target config defaultUsername
        = inl {| sshKey := ssh_key s; username := ssh_user s |}).
Proof.
  split; [| split].
  - exact first_match_decides.
  - reflexivity.
  - intros target config dflt s v k Hs _ _ Hp. unfold selectCredentials.
    rewrite Hs, matching_some; [reflexivity|].
    simpl. rewrite Hp, String.eqb_refl. reflexivity.
Qed.

Lemma selectCredentials_first_match_witness :
  selectCredentials "1.1.1.1"
    (sample_lab (sample_slot "1.1.1.1" "siem-admin" true)
                (sample_slot "1.1.1.1" "victim-admin" true)
                (sample_slot "3.3.3.3" "kali-admin" true)) "kali"
  = inl {| sshKey := "~/.ssh/siem-admin"; username := "siem-admin" |}.
Proof.
  apply (proj2 (proj2 selectCredentials_first_match) "1.1.1.1"
           (sample_lab (sample_slot "1.1.1.1" "siem-admin" true)
                       (sample_slot "1.1.1.1" "victim-admin" true)
                       (sample_slot "3.3.3.3" "kali-admin" true)) "kali"
           _ _ _ eq_refl eq_refl eq_refl eq_refl).
Defined.

(** C4. When no [Instance] slot has the target as one of its addresses,
    a kali slot that is an [Instance] gives kali's key with the caller's
    default user name, not kali's own user; a kali slot that is a
    [DisabledInstance] makes the call fail. *)
Theorem selectCredentials_fallback :
  forall target config defaultUsername,
    forallb (fun slot => negb (slot_matches target slot)) (slots_by_priority config) = true ->
    (forall k, kali (instances config) = SlotInstance k ->
               selectCredentials target config defaultUsername
               = inl {| sshKey := ssh_key k; username := defaultUsername |})
    /\ (forall d, kali (instances config) = SlotDisabled d ->
                  selectCredentials target config defaultUsername = inr KaliNotAvailable).
Proof.
  intros target config dflt H. unfold slots_by_priority in H. cbn [forallb] in H.
  apply andb_prop in H. destruct H as [Hs H].
  apply andb_prop in H. destruct H as [Hv H].
  apply andb_prop in H. destruct H as [Hk _].
  apply negb_true_iff in Hs, Hv, Hk.
  unfold selectCredentials.
  rewrite (matching_none _ _ Hs), (matching_none _ _ Hv), (matching_none _ _ Hk).
  split; intros x ->; reflexivity.
Qed.

Lemma selectCredentials_fallback_witness :
  selectCredentials "9.9.9.9"
    (sample_lab (sample_slot "1.1.1.1" "siem-admin" true)
                (SlotDisabled Disabled)
                (sample_slot "3.3.3.3" "kali-admin" true)) "operator"
  = inl {| sshKey := "~/.ssh/kali-admin"; username := "operator" |}
  /\ selectCredentials "9.9.9.9"
       (sample_lab (sample_slot "1.1.1.1" "siem-admin" true)
                   (sample_slot "2.2.2.2" "victim-admin" true)
                   (SlotDisabled Disabled)) "kali"
     = inr KaliNotAvailable.
Proof.
  split.
  - apply (proj1 (selectCredentials_fallback "9.9.9.9"
             (sample_lab (sample_slot "1.1.1.1" "siem-admin" true)
                         (SlotDisabled Disabled)
                         (sample_slot "3.3.3.3" "kali-admin" true)) "operator" eq_refl)
             _ eq_refl).
  - apply (proj2 (selectCredentials_fallback "9.9.9.9"
             (sample_lab (sample_slot "1.1.1.1" "siem-admin" true)
                         (sample_slot "2.2.2.2" "victim-admin" true)
                         (SlotDisabled Disabled)) "kali" eq_refl) Disabled eq_refl).
Defined.

(* ================================================================== *)
(** * Root discovery *)

Lemma checkKnown_some (existsSync : fspath -> bool) (locations : list fspath) :
  forall location,
    In location locations ->
    existsSync location = true -> has_marker existsSync location = true ->
    exists root,
      checkKnown existsSync locations = Some root /\ In root locations /\
      existsSync root = true /\ has_marker existsSync root = true.
Proof.
  induction locations as [|l rest IH]; intros location Hin He Hm; [destruct Hin|].
  cbn [checkKnown].
  destruct (existsSync l) eqn:El.
  - fold (has_marker existsSync l). destruct (has_marker existsSync l) eqn:Ml.
    + exists l. simpl. auto.
    + destruct Hin as [-> | Hin]; [congruence|].
      destruct (IH location Hin He Hm) as (root & ? & ? & ? & ?).
      exists root. simpl. auto.
  - destruct Hin as [-> | Hin]; [congruence|].
    destruct (IH location Hin He Hm) as (root & ? & ? & ? & ?).
    exists root. simpl. auto.
Qed.

(** The loop over the candidates returns the first one, in list order,
    that exists and holds a marker at its top level. *)
Lemma checkKnown_first (existsSync : fspath -> bool) (locations : list fspath) :
  forall location,
    In location locations ->
    existsSync location = true -> has_marker existsSync location = true ->
    exists before root after,
      locations = before ++ root :: after /\
      (forall l, In l before -> existsSync l && has_marker existsSync l = false) /\
      existsSync root = true /\ has_marker existsSync root = true /\
      (root = location \/ In location after) /\
      checkKnown existsSync locations = Some root.
Proof.
  induction locations as [|l rest IH]; intros location Hin He Hm; [destruct Hin|].
  cbn [checkKnown]. fold (has_marker existsSync l).
  destruct (existsSync l && has_marker existsSync l) eqn:Q.
  - apply andb_prop in Q. destruct Q as [El Ml]. rewrite El, Ml.
    exists [], l, rest. cbn [app]. repeat split; trivial.
    intros x [].
  - assert (Hrest : In location rest).
    { destruct Hin as [-> | Hin]; [|exact Hin]. rewrite He, Hm in Q. discriminate. }
    destruct (IH location Hrest He Hm) as (before & root & after & -> & Hb & Er & Mr & Hl & Hc).
    exists (l :: before), root, after. cbn [app]. repeat split; trivial.
    + intros x [<- | Hx]; [exact Q | apply Hb; exact Hx].
    + rewrite <- Hc. destruct (existsSync l); [|reflexivity].
      cbn [andb] in Q. rewrite Q. reflexivity.
Qed.

(** No candidate that exists with a marker at its top level: the loop
    returns nothing, whatever else the candidates hold. *)
Lemma checkKnown_none (existsSync : fspath -> bool) (locations : list fspath) :
  (forall l, In l locations -> existsSync l && has_marker existsSync l = false) ->
  checkKnown existsSync locations = None.
Proof.
  induction locations as [|l rest IH]; intros H; cbn [checkKnown]; [reflexivity|].
  fold (has_marker existsSync l).
  pose proof (H l (or_introl eq_refl)) as Q.
  destruct (existsSync l); cbn [andb] in Q; [rewrite Q|];
    apply IH; intros x Hx; apply H; right; exact Hx.
Qed.

(** C9, as the code has it. A known location qualifies when it exists and
    holds [main.tf] or [outputs.tf] at its top level; when some known
    location qualifies, the first one in list order that does is returned,
    whatever the working directory: the upward walk is not reached. The
    [infrastructure] subdirectory of a candidate is not probed in this
    phase: when no candidate qualifies at its top level the candidates
    give nothing and the result is that of the upward walk alone. The
    second candidate is the [infrastructure] directory of the first. *)
Theorem known_location_returned :
  (forall (existsSync : fspath -> bool) (location : fspath),
      In location knownLocations ->
      existsSync location = true ->
      has_marker existsSync location = true ->
      exists before root after,
        knownLocations = before ++ root :: after /\
        (forall l, In l before -> existsSync l && has_marker existsSync l = false) /\
        existsSync root = true /\ has_marker existsSync root = true /\
        (root = location \/ In location after) /\
        forall cwd, findTerraformRoot existsSync cwd = inl root)
  /\ (forall existsSync : fspath -> bool,
        (forall l, In l knownLocations ->
                   existsSync l && has_marker existsSync l = false) ->
        forall cwd,
          findTerraformRoot existsSync cwd
          = match walkUp existsSync maxDepth cwd with
            | Some root => inl root
            | None => inr (TerraformRootNotFound cwd)
            end)
  /\ knownLocations
     = [ ["home"; "atomik"; "src"; "aptl"];
         resolve ["home"; "atomik"; "src"; "aptl"] ["infrastructure"] ].
Proof.
  split; [| split; [| reflexivity]].
  - intros existsSync location Hin He Hm.
    destruct (checkKnown_first existsSync knownLocations location Hin He Hm)
      as (before & root & after & E & Hb & Er & Mr & Hl & Hc).
    exists before, root, after. repeat split; trivial.
    intros cwd. unfold findTerraformRoot. rewrite Hc. reflexivity.
  - intros existsSync H cwd. unfold findTerraformRoot.
    rewrite (checkKnown_none existsSync knownLocations H). reflexivity.
Qed.

Lemma known_location_returned_witness :
  exists before root after,
    knownLocations = before ++ root :: after /\
    (forall l, In l before -> infra_fs l && has_marker infra_fs l = false) /\
    infra_fs root = true /\ has_marker infra_fs root = true /\
    (root = ["home"; "atomik"; "src"; "aptl"; "infrastructure"] \/
     In ["home"; "atomik"; "src"; "aptl"; "infrastructure"] after) /\
    forall cwd, findTerraformRoot infra_fs cwd = inl root.
Proof.
  apply (proj1 known_location_returned infra_fs
           ["home"; "atomik"; "src"; "aptl"; "infrastructure"]).
  - simpl. auto.
  - vm_compute. reflexivity.
  - vm_compute. reflexivity.
Defined.

(** C9 fails as stated: the second known location exists and holds
    [main.tf] inside its [infrastructure] subdirectory, yet it is not
    returned; from the working directory [/home/atomik] nothing is found. *)
Lemma known_location_infra_not_probed :
  In ["home"; "atomik"; "src"; "aptl"; "infrastructure"] knownLocations
  /\ nested_infra_fs ["home"; "atomik"; "src"; "aptl"; "infrastructure"] = true
  /\ has_infra_marker nested_infra_fs
       ["home"; "atomik"; "src"; "aptl"; "infrastructure"] = true
  /\ findTerraformRoot nested_infra_fs ["home"; "atomik"]
     = inr (TerraformRootNotFound ["home"; "atomik"]).
Proof.
  split; [simpl; auto|]. repeat split; vm_compute; reflexivity.
Qed.

(* ================================================================== *)
(** * Parsing: statuses and issues *)

Lemma is_ok_ap {A B} (f : Zod.result (A -> B)) (x : Zod.result A) :
  Zod.is_ok (f <*> x) = Zod.is_ok f && Zod.is_ok x.
Proof.
  destruct f as [fi [g | g |]], x as [xi [a | a |]]; reflexivity.
Qed.

Lemma issues_ap {A B} (f : Zod.result (A -> B)) (x : Zod.result A) :
  Zod.issues (f <*> x) = Zod.issues f ++ Zod.issues x.
Proof. reflexivity. Qed.

Lemma is_ok_rmap {A B} (f : A -> B) (r : Zod.result A) :
  Zod.is_ok (Zod.rmap f r) = Zod.is_ok r.
Proof. destruct r as [ri [a | a |]]; reflexivity. Qed.

Lemma is_ok_status {A} (r : Zod.result A) :
  Zod.is_ok r = true <-> exists a, Zod.status r = Zod.OK a.
Proof.
  unfold Zod.is_ok. destruct (Zod.status r); split; eauto; try discriminate;
    intros (b & Hb); discriminate.
Qed.

Lemma ap_OK_inv {A B} (f : Zod.result (A -> B)) (x : Zod.result A) (b : B) :
  Zod.status (f <*> x) = Zod.OK b ->
  exists g a, Zod.status f = Zod.OK g /\ Zod.status x = Zod.OK a /\ b = g a.
Proof.
  destruct f as [fi [g | g |]], x as [xi [a | a |]]; cbn; try discriminate.
  intros H. injection H as <-. eauto.
Qed.

Lemma flatten_app (a b : list Zod.issue) :
  Zod.flatten (a ++ b) = Zod.flatten a ++ Zod.flatten b.
Proof. apply flat_map_app. Qed.

Lemma in_flatten (i : Zod.issue) (l : list Zod.issue) :
  In i l -> In i (Zod.flatten l).
Proof.
  intros H. apply in_flat_map. exists i. split; [exact H|].
  destruct i; simpl; auto.
Qed.

Lemma reports_ap_l {A B} (f : Zod.result (A -> B)) (x : Zod.result A) i :
  Zod.reports f i -> Zod.reports (f <*> x) i.
Proof.
  intros [Hok Hin]. split.
  - rewrite is_ok_ap, Hok. reflexivity.
  - rewrite issues_ap, flatten_app. apply in_or_app. auto.
Qed.

Lemma reports_ap_r {A B} (f : Zod.result (A -> B)) (x : Zod.result A) i :
  Zod.reports x i -> Zod.reports (f <*> x) i.
Proof.
  intros [Hok Hin]. split.
  - rewrite is_ok_ap, Hok. apply andb_false_r.
  - rewrite issues_ap, flatten_app. apply in_or_app. auto.
Qed.

Lemma reports_rmap {A B} (f : A -> B) (r : Zod.result A) i :
  Zod.reports r i -> Zod.reports (Zod.rmap f r) i.
Proof.
  intros [Hok Hin]. split; [rewrite is_ok_rmap; exact Hok | exact Hin].
Qed.

Lemma reports_fail {A} (c : Zod.issue_code) (p : Zod.path) :
  Zod.reports (@Zod.fail A c p) (Zod.Issue c p).
Proof. split; [reflexivity | simpl; auto]. Qed.

(** A parse that is not valid is what [parse] throws. *)
Lemma parse_reports {A} (s : Zod.schema A) (data : json) i :
  Zod.reports (s [] (Some data)) i ->
  exists E, Zod.parse s data = inr E /\ In i (Zod.flatten E).
Proof.
  intros [Hok Hin]. exists (Zod.issues (s [] (Some data))). split; [|exact Hin].
  unfold Zod.parse. unfold Zod.is_ok in Hok.
  destruct (Zod.status (s [] (Some data))); [discriminate | reflexivity | reflexivity].
Qed.

(** A field of a primitive kind that is missing or of another kind is
    reported at its own path. *)
Lemma string_reports (p : Zod.path) (v : option json) :
  match v with Some w => has_kind KString w = false | None => True end ->
  Zod.reports (Zod.string_ p v) (Zod.Issue Zod.invalid_type p).
Proof.
  destruct v as [[]|]; simpl; intros H; try discriminate; apply reports_fail.
Qed.

Lemma number_reports (p : Zod.path) (v : option json) :
  match v with Some w => has_kind KNumber w = false | None => True end ->
  Zod.reports (Zod.number_ p v) (Zod.Issue Zod.invalid_type p).
Proof.
  destruct v as [[]|]; simpl; intros H; try discriminate; apply reports_fail.
Qed.

Lemma boolean_reports (p : Zod.path) (v : option json) :
  match v with Some w => has_kind KBoolean w = false | None => True end ->
  Zod.reports (Zod.boolean_ p v) (Zod.Issue Zod.invalid_type p).
Proof.
  destruct v as [[]|]; simpl; intros H; try discriminate; apply reports_fail.
Qed.

Lemma array_reports {A} (elem : Zod.schema A) (p : Zod.path) (v : option json) :
  match v with Some w => has_kind KArray w = false | None => True end ->
  Zod.reports (Zod.array elem p v) (Zod.Issue Zod.invalid_type p).
Proof.
  destruct v as [[]|]; simpl; intros H; try discriminate; apply reports_fail.
Qed.

Lemma object_reports {A} (shape : Zod.path -> list (string * json) -> Zod.result A)
      (p : Zod.path) (v : option json) :
  match v with Some w => has_kind KObject w = false | None => True end ->
  Zod.reports (Zod.object shape p v) (Zod.Issue Zod.invalid_type p).
Proof.
  destruct v as [[]|]; simpl; intros H; try discriminate; apply reports_fail.
Qed.

Lemma optional_reports {A} (inner : Zod.schema A) (p : Zod.path) (w : json) i :
  Zod.reports (inner p (Some w)) i ->
  Zod.reports (Zod.optional inner p (Some w)) i.
Proof. apply reports_rmap. Qed.

(** An element of an array that its schema refuses is reported at its index. *)
Lemma elements_reports {A} (elem : Zod.schema A) (p : Zod.path) (items : list json) :
  forall start n w i,
    nth_error items n = Some w ->
    Zod.reports (elem (p ++ [Zod.Index (start + n)]) (Some w)) i ->
    Zod.reports (Zod.elements elem p start items) i.
Proof.
  induction items as [|x rest IH]; intros start n w i Hn Hr.
  - destruct n; discriminate.
  - cbn [Zod.elements]. destruct n as [|n]; simpl in Hn.
    + injection Hn as ->. rewrite Nat.add_0_r in Hr.
      apply reports_ap_l, reports_rmap, Hr.
    + apply reports_ap_r. apply (IH (S start) n w i Hn).
      rewrite Nat.add_succ_comm. exact Hr.
Qed.

Lemma in_invalid_union (p : Zod.path) (errs : list (list Zod.issue))
      (l : list Zod.issue) (i : Zod.issue) :
  In l errs -> In i (Zod.flatten l) ->
  In i (Zod.flatten [Zod.InvalidUnion p errs]).
Proof.
  intros Hl Hi. unfold Zod.flatten at 1. cbn [flat_map Zod.flatten_issue].
  rewrite app_nil_r. right. apply in_flat_map. exists l. auto.
Qed.

(* ================================================================== *)
(** * The instance slot *)

Section SlotFacts.

Variable isValidIP : string -> bool.

(** [DisabledInstanceSchema] is valid on an object whose [enabled] is the
    literal [false], and aborts on anything else. *)
Lemma disabled_status (p : Zod.path) (v : option json) :
  match v with
  | Some (JObject o) =>
      match get o "enabled" with
      | Some (JBool false) => DisabledInstanceSchema p v = Zod.pure Disabled
      | _ => Zod.status (DisabledInstanceSchema p v) = Zod.INVALID
      end
  | _ => Zod.status (DisabledInstanceSchema p v) = Zod.INVALID
  end.
Proof.
  destruct v as [[]|]; try reflexivity.
  unfold DisabledInstanceSchema, Zod.object, Zod.field.
  destruct (get fields "enabled") as [[| [] | | | |]|]; reflexivity.
Qed.

Lemma disabled_ok_or_invalid (p : Zod.path) (v : option json) :
  DisabledInstanceSchema p v = Zod.pure Disabled \/
  Zod.status (DisabledInstanceSchema p v) = Zod.INVALID.
Proof.
  pose proof (disabled_status p v) as H.
  destruct v as [[]|]; auto.
  destruct (get fields "enabled") as [[| [] | | | |]|]; auto.
Qed.

(** The union returns the [Instance] when [InstanceSchema] is valid. *)
Lemma slot_instance (p : Zod.path) (v : option json) (i : Instance) :
  Zod.status (InstanceSchema isValidIP p v) = Zod.OK i ->
  InstanceSlotSchema isValidIP p v = Zod.pure (SlotInstance i).
Proof.
  intros H. unfold InstanceSlotSchema, Zod.union. cbn [Zod.union_from].
  destruct (InstanceSchema isValidIP p v) as [is1 [a | a |]]; try discriminate.
  cbn in H. injection H as ->. reflexivity.
Qed.

(** Failing that, it returns the [DisabledInstance] when
    [DisabledInstanceSchema] is valid. *)
Lemma slot_disabled (p : Zod.path) (v : option json) :
  Zod.is_ok (InstanceSchema isValidIP p v) = false ->
  DisabledInstanceSchema p v = Zod.pure Disabled ->
  InstanceSlotSchema isValidIP p v = Zod.pure (SlotDisabled Disabled).
Proof.
  intros H1 H2. unfold InstanceSlotSchema, Zod.union. cbn [Zod.union_from].
  unfold Zod.is_ok in H1. rewrite H2.
  destruct (InstanceSchema isValidIP p v) as [is1 [a | a |]];
    try discriminate; reflexivity.
Qed.

(** When neither schema is valid the slot is refused, and the issues of
    [InstanceSchema] are in the error. *)
Lemma slot_reports (p : Zod.path) (v : option json) (i : Zod.issue) :
  Zod.reports (InstanceSchema isValidIP p v) i ->
  Zod.status (DisabledInstanceSchema p v) = Zod.INVALID ->
  Zod.reports (InstanceSlotSchema isValidIP p v) i.
Proof.
  intros [H1 Hin] H2. unfold InstanceSlotSchema, Zod.union. cbn [Zod.union_from].
  unfold Zod.is_ok in H1.
  destruct (InstanceSchema isValidIP p v) as [is1 [a | a |]] eqn:E1; try discriminate;
    destruct (DisabledInstanceSchema p v) as [is2 [d | d |]] eqn:E2; try discriminate;
    cbn [Zod.rmap Zod.issues Zod.status fst snd] in *.
  - split; [reflexivity | exact Hin].
  - split; [reflexivity|]. cbn [Zod.issues fst].
    apply in_invalid_union with (l := is1); [|exact Hin].
    destruct is1 as [|x is1]; [destruct Hin|].
    destruct is2; simpl; auto.
Qed.

(** Every accepted slot is the output of exactly one of the two schemas. *)
Lemma slot_inversion (p : Zod.path) (v : option json) (slot : InstanceSlot) :
  Zod.status (InstanceSlotSchema isValidIP p v) = Zod.OK slot ->
  (exists i, slot = SlotInstance i /\
             Zod.status (InstanceSchema isValidIP p v) = Zod.OK i)
  \/ (exists d, slot = SlotDisabled d /\
                Zod.is_ok (InstanceSchema isValidIP p v) = false /\
                Zod.status (DisabledInstanceSchema p v) = Zod.OK d).
Proof.
  unfold InstanceSlotSchema, Zod.union. cbn [Zod.union_from]. unfold Zod.is_ok.
  destruct (InstanceSchema isValidIP p v) as [is1 [a | a |]] eqn:E1;
    destruct (DisabledInstanceSchema p v) as [is2 [d | d |]] eqn:E2; cbn;
    intros H; try discriminate; try (injection H as <-); eauto.
Qed.

End SlotFacts.

Section InstanceFacts.

Variable isValidIP : string -> bool.

Lemma entries_numbers (p : Zod.path) (props : list (string * json)) :
  forallb (fun kv => has_kind KNumber (snd kv)) props = true ->
  exists l, Zod.entries Zod.number_ p props = Zod.pure l.
Proof.
  induction props as [|[k x] rest IH]; cbn [forallb Zod.entries]; intros H.
  - eexists. reflexivity.
  - apply andb_prop in H. destruct H as [Hx Hrest].
    destruct (IH Hrest) as (l & ->).
    destruct x; try discriminate. eexists. reflexivity.
Qed.

Lemma ports_parse (p : Zod.path) (v : option json) :
  ports_ok v = true ->
  exists r, Zod.optional (Zod.record Zod.number_) p v = Zod.pure r.
Proof.
  destruct v as [[]|]; simpl; intros H; try discriminate.
  - destruct (entries_numbers p _ H) as (l & ->). eexists. reflexivity.
  - eexists. reflexivity.
Qed.

(** A well-formed instance object is valid for [InstanceSchema]; its
    [enabled] is the value given, or [true] when none is given. *)
Lemma instance_well_formed (p : Zod.path) (o : list (string * json)) (e : bool) :
  well_formed_instance isValidIP o = true ->
  (get o "enabled" = None /\ e = true) \/ get o "enabled" = Some (JBool e) ->
  exists i,
    InstanceSchema isValidIP p (Some (JObject o)) = Zod.pure i /\
    enabled i = e /\
    get o "public_ip" = Some (JString (public_ip i)) /\
    get o "private_ip" = Some (JString (private_ip i)) /\
    get o "ssh_key" = Some (JString (ssh_key i)) /\
    get o "ssh_user" = Some (JString (ssh_user i)).
Proof.
  unfold well_formed_instance. intros H He.
  repeat match type of H with
         | context [match ?x with _ => _ end] => destruct x eqn:?; try discriminate H
         end.
  apply andb_prop in H. destruct H as [H Hports].
  apply andb_prop in H. destruct H as [Hpub Hpriv].
  destruct (ports_parse (p ++ [Zod.Key "ports"]) _ Hports) as (r & Hr).
  unfold InstanceSchema, Zod.object, Zod.field.
  rewrite Hr.
  repeat match goal with
         | E : get o _ = Some _ |- _ => rewrite E; clear E
         end.
  unfold Zod.string_ip. rewrite Hpub, Hpriv.
  destruct He as [[-> ->] | ->]; eexists; (split; [reflexivity|]); cbn; auto.
Qed.

(** An address that fails the check is reported at its own path. *)
Lemma string_ip_reports (p : Zod.path) (s : string) :
  isValidIP s = false ->
  Zod.reports (Zod.string_ip isValidIP p (Some (JString s)))
              (Zod.Issue Zod.invalid_string p).
Proof.
  intros H. unfold Zod.string_ip. rewrite H. split; [reflexivity | simpl; auto].
Qed.

Lemma string_ip_type_reports (p : Zod.path) (v : option json) :
  match v with Some w => has_kind KString w = false | None => True end ->
  Zod.reports (Zod.string_ip isValidIP p v) (Zod.Issue Zod.invalid_type p).
Proof.
  destruct v as [[]|]; simpl; intros H; try discriminate; apply reports_fail.
Qed.

Lemma enabled_reports (p : Zod.path) (w : json) :
  has_kind KBoolean w = false ->
  Zod.reports (Zod.default true (Zod.optional Zod.boolean_) p (Some w))
              (Zod.Issue Zod.invalid_type p).
Proof.
  intros H. unfold Zod.default. apply reports_rmap, optional_reports, boolean_reports.
  exact H.
Qed.

Lemma ports_reports (p : Zod.path) (w : json) :
  has_kind KObject w = false ->
  Zod.reports (Zod.optional (Zod.record Zod.number_) p (Some w))
              (Zod.Issue Zod.invalid_type p).
Proof.
  intros H. apply optional_reports.
  destruct w; try discriminate; apply reports_fail.
Qed.

(** What a field of the instance object reports is reported by
    [InstanceSchema]. *)
Lemma instance_field_reports (p : Zod.path) (o : list (string * json)) (i : Zod.issue) :
  Zod.reports (Zod.string_ip isValidIP (p ++ [Zod.Key "public_ip"]) (get o "public_ip")) i
  \/ Zod.reports (Zod.string_ip isValidIP (p ++ [Zod.Key "private_ip"]) (get o "private_ip")) i
  \/ Zod.reports (Zod.string_ (p ++ [Zod.Key "ssh_key"]) (get o "ssh_key")) i
  \/ Zod.reports (Zod.string_ (p ++ [Zod.Key "ssh_user"]) (get o "ssh_user")) i
  \/ Zod.reports (Zod.string_ (p ++ [Zod.Key "instance_type"]) (get o "instance_type")) i
  \/ Zod.reports (Zod.default true (Zod.optional Zod.boolean_)
                    (p ++ [Zod.Key "enabled"]) (get o "enabled")) i
  \/ Zod.reports (Zod.optional (Zod.record Zod.number_)
                    (p ++ [Zod.Key "ports"]) (get o "ports")) i ->
  Zod.reports (InstanceSchema isValidIP p (Some (JObject o))) i.
Proof.
  unfold InstanceSchema, Zod.object, Zod.field.
  intros [H | [H | [H | [H | [H | [H | H]]]]]];
    auto 10 using @reports_ap_l, @reports_ap_r.
Qed.

End InstanceFacts.

(* ================================================================== *)
(** * The blocks of the configuration *)

Ltac ap_inversion H :=
  repeat (apply ap_OK_inv in H; destruct H as (? & ? & H & ? & ->));
  cbn in H; injection H as <-.

Section BlockFacts.

Variable isValidIP : string -> bool.

Lemma string_ip_valid (p : Zod.path) (v : option json) (s : string) :
  Zod.status (Zod.string_ip isValidIP p v) = Zod.OK s -> isValidIP s = true.
Proof.
  destruct v as [[]|]; cbn; try discriminate.
  destruct (isValidIP s0) eqn:E; cbn; [|discriminate].
  intros H. injection H as <-. exact E.
Qed.

(** An instance that [InstanceSchema] accepts has two addresses that pass
    the address check. *)
Lemma instance_valid_addresses (p : Zod.path) (v : option json) (i : Instance) :
  Zod.status (InstanceSchema isValidIP p v) = Zod.OK i ->
  isValidIP (public_ip i) = true /\ isValidIP (private_ip i) = true.
Proof.
  destruct v as [[]|]; try discriminate.
  unfold InstanceSchema, Zod.object, Zod.field. intros H.
  ap_inversion H. cbn [public_ip private_ip].
  split; eapply string_ip_valid; eassumption.
Qed.

Lemma lab_field_reports (p : Zod.path) (o : list (string * json)) (i : Zod.issue) :
  Zod.reports (Zod.string_ (p ++ [Zod.Key "name"]) (get o "name")) i
  \/ Zod.reports (Zod.string_ (p ++ [Zod.Key "vpc_cidr"]) (get o "vpc_cidr")) i
  \/ Zod.reports (Zod.optional Zod.string_ (p ++ [Zod.Key "project"]) (get o "project")) i
  \/ Zod.reports (Zod.optional Zod.string_ (p ++ [Zod.Key "environment"])
                    (get o "environment")) i ->
  Zod.reports (LabSchema p (Some (JObject o))) i.
Proof.
  unfold LabSchema, Zod.object, Zod.field.
  intros [H | [H | [H | H]]]; auto 10 using @reports_ap_l, @reports_ap_r.
Qed.

Lemma network_field_reports (p : Zod.path) (o : list (string * json)) (i : Zod.issue) :
  Zod.reports (Zod.string_ (p ++ [Zod.Key "vpc_cidr"]) (get o "vpc_cidr")) i
  \/ Zod.reports (Zod.string_ (p ++ [Zod.Key "subnet_cidr"]) (get o "subnet_cidr")) i
  \/ Zod.reports (Zod.string_ (p ++ [Zod.Key "allowed_ip"]) (get o "allowed_ip")) i ->
  Zod.reports (NetworkSchema p (Some (JObject o))) i.
Proof.
  unfold NetworkSchema, Zod.object, Zod.field.
  intros [H | [H | H]]; auto 10 using @reports_ap_l, @reports_ap_r.
Qed.

Lemma mcp_field_reports (p : Zod.path) (o : list (string * json)) (i : Zod.issue) :
  Zod.reports (Zod.string_ (p ++ [Zod.Key "server_name"]) (get o "server_name")) i
  \/ Zod.reports (Zod.array Zod.string_ (p ++ [Zod.Key "allowed_targets"])
                    (get o "allowed_targets")) i
  \/ Zod.reports (Zod.number_ (p ++ [Zod.Key "max_session_time"])
                    (get o "max_session_time")) i
  \/ Zod.reports (Zod.boolean_ (p ++ [Zod.Key "audit_enabled"]) (get o "audit_enabled")) i
  \/ Zod.reports (Zod.string_ (p ++ [Zod.Key "log_level"]) (get o "log_level")) i ->
  Zod.reports (MCPConfigSchema p (Some (JObject o))) i.
Proof.
  unfold MCPConfigSchema, Zod.object, Zod.field.
  intros [H | [H | [H | [H | H]]]]; auto 10 using @reports_ap_l, @reports_ap_r.
Qed.

Lemma instances_field_reports (p : Zod.path) (o : list (string * json)) (i : Zod.issue) :
  Zod.reports (InstanceSlotSchema isValidIP (p ++ [Zod.Key "siem"]) (get o "siem")) i
  \/ Zod.reports (InstanceSlotSchema isValidIP (p ++ [Zod.Key "victim"]) (get o "victim")) i
  \/ Zod.reports (InstanceSlotSchema isValidIP (p ++ [Zod.Key "kali"]) (get o "kali")) i ->
  Zod.reports (InstancesSchema isValidIP p (Some (JObject o))) i.
Proof.
  unfold InstancesSchema, Zod.object, Zod.field.
  intros [H | [H | H]]; auto 10 using @reports_ap_l, @reports_ap_r.
Qed.

Lemma config_field_reports (p : Zod.path) (o : list (string * json)) (i : Zod.issue) :
  Zod.reports (Zod.string_ (p ++ [Zod.Key "version"]) (get o "version")) i
  \/ Zod.reports (Zod.string_ (p ++ [Zod.Key "generated"]) (get o "generated")) i
  \/ Zod.reports (LabSchema (p ++ [Zod.Key "lab"]) (get o "lab")) i
  \/ Zod.reports (InstancesSchema isValidIP (p ++ [Zod.Key "instances"])
                    (get o "instances")) i
  \/ Zod.reports (NetworkSchema (p ++ [Zod.Key "network"]) (get o "network")) i
  \/ Zod.reports (MCPConfigSchema (p ++ [Zod.Key "mcp"]) (get o "mcp")) i ->
  Zod.reports (LabConfigSchema isValidIP p (Some (JObject o))) i.
Proof.
  unfold LabConfigSchema, Zod.object, Zod.field.
  intros [H | [H | [H | [H | [H | H]]]]]; auto 10 using @reports_ap_l, @reports_ap_r.
Qed.

(** What the schema of a slot reports is reported for the whole
    configuration. *)
Lemma slot_reports_config (raw : json) (name : string) (w : option json) (i : Zod.issue) :
  In name slot_names ->
  match at_path raw ["instances"] with
  | Some (JObject o) => get o name = w
  | _ => False
  end ->
  Zod.reports (InstanceSlotSchema isValidIP (keys ["instances"; name]) w) i ->
  Zod.reports (LabConfigSchema isValidIP [] (Some raw)) i.
Proof.
  intros Hname Hat Hr. cbn in Hat.
  destruct raw as [| | | | |fs]; try contradiction.
  destruct (get fs "instances") as [[| | | | |ifs]|] eqn:Ei; try contradiction.
  subst w. apply config_field_reports. right. right. right. left. rewrite Ei.
  apply instances_field_reports.
  destruct Hname as [<- | [<- | [<- | []]]]; auto.
Qed.

(** Every slot of an accepted configuration was accepted by the schema of
    a slot. *)
Lemma config_slots_accepted (p : Zod.path) (v : option json) (config : LabConfig) :
  Zod.status (LabConfigSchema isValidIP p v) = Zod.OK config ->
  forall slot, In slot (slots_by_priority config) ->
    exists q w, Zod.status (InstanceSlotSchema isValidIP q w) = Zod.OK slot.
Proof.
  destruct v as [[]|]; try discriminate.
  unfold LabConfigSchema, Zod.object, Zod.field. intros H.
  ap_inversion H.
  match goal with
  | Hi : Zod.status (InstancesSchema _ _ ?w) = _ |- _ =>
      destruct w as [[]|]; try discriminate Hi;
      unfold InstancesSchema, Zod.object, Zod.field in Hi; ap_inversion Hi
  end.
  unfold slots_by_priority. cbn [instances siem victim kali].
  intros slot [<- | [<- | [<- | []]]]; eauto.
Qed.

End BlockFacts.

(* ================================================================== *)
(** * Validation of the instance slots *)

Lemma at_path_slot (raw : json) (name : string) (w : json) :
  at_path raw ["instances"; name] = Some w ->
  match at_path raw ["instances"] with
  | Some (JObject o) => get o name = Some w
  | _ => False
  end.
Proof.
  cbn. destruct raw as [| | | | |fs]; try discriminate.
  destruct (get fs "instances") as [[| | | | |ifs]|]; try discriminate.
  destruct (get ifs name); [|discriminate]. intros H. injection H as ->. reflexivity.
Qed.

Lemma disabled_invalid (p : Zod.path) (o : list (string * json)) :
  get o "enabled" <> Some (JBool false) ->
  Zod.status (DisabledInstanceSchema p (Some (JObject o))) = Zod.INVALID.
Proof.
  intros H. pose proof (disabled_status p (Some (JObject o))) as D. cbn in D.
  destruct (get o "enabled") as [[| [] | | | |]|]; try exact D. congruence.
Qed.

Lemma disabled_valid (p : Zod.path) (o : list (string * json)) :
  get o "enabled" = Some (JBool false) ->
  DisabledInstanceSchema p (Some (JObject o)) = Zod.pure Disabled.
Proof.
  intros H. pose proof (disabled_status p (Some (JObject o))) as D. cbn in D.
  rewrite H in D. exact D.
Qed.

(** An address field that holds a string the check refuses is reported by
    [InstanceSchema]. *)
Lemma bad_address_reports (isValidIP : string -> bool) (p : Zod.path)
      (o : list (string * json)) (f s : string) :
  In f ["public_ip"; "private_ip"] ->
  get o f = Some (JString s) -> isValidIP s = false ->
  Zod.reports (InstanceSchema isValidIP p (Some (JObject o)))
              (Zod.Issue Zod.invalid_string (p ++ [Zod.Key f])).
Proof.
  intros Hf Hg Hs. apply instance_field_reports.
  destruct Hf as [<- | [<- | []]]; rewrite Hg; auto using string_ip_reports.
Qed.

(** C6. A well-formed instance object without [enabled] validates to the
    [Instance] variant with [enabled] true; the object holding only
    [enabled: false] validates to the [DisabledInstance] variant; and a
    slot that is accepted is the output of exactly one of the two
    schemas: an [Instance] when [InstanceSchema] accepts the value, a
    [DisabledInstance] when it does not and [DisabledInstanceSchema]
    does. *)
Theorem slot_resolves_to_one_variant :
  forall isValidIP : string -> bool,
    (forall p o,
        well_formed_instance isValidIP o = true ->
        get o "enabled" = None ->
        exists i, InstanceSlotSchema isValidIP p (Some (JObject o))
                  = Zod.pure (SlotInstance i) /\ enabled i = true)
    /\ (forall p, InstanceSlotSchema isValidIP p (Some (JObject [("enabled", JBool false)]))
                  = Zod.pure (SlotDisabled Disabled))
    /\ (forall p v slot,
          Zod.status (InstanceSlotSchema isValidIP p v) = Zod.OK slot ->
          ((exists i, slot = SlotInstance i /\
                      Zod.status (InstanceSchema isValidIP p v) = Zod.OK i)
           /\ ~ (exists d, slot = SlotDisabled d))
          \/ ((exists d, slot = SlotDisabled d /\
                         Zod.is_ok (InstanceSchema isValidIP p v) = false /\
                         Zod.status (DisabledInstanceSchema p v) = Zod.OK d)
              /\ ~ (exists i, slot = SlotInstance i))).
Proof.
  intros isValidIP. split; [| split].
  - intros p o Hwf He.
    destruct (instance_well_formed isValidIP p o true Hwf (or_introl (conj He eq_refl)))
      as (i & Hi & Hen & _).
    exists i. split; [|exact Hen].
    apply slot_instance. rewrite Hi. reflexivity.
  - intros p. reflexivity.
  - intros p v slot H.
    destruct (slot_inversion isValidIP p v slot H) as [(i & -> & Hi) | (d & -> & Hn & Hd)].
    + left. split; [eauto|]. intros (d & Hd). discriminate.
    + right. split; [eauto|]. intros (i & Hi). discriminate.
Qed.

Lemma slot_resolves_to_one_variant_witness :
  exists i,
    InstanceSlotSchema sample_isValidIP [Zod.Key "instances"; Zod.Key "kali"]
      (Some (JObject (sample_instance "3.3.3.3" "10.0.1.10" "~/.ssh/kali" "kali")))
    = Zod.pure (SlotInstance i) /\ enabled i = true.
Proof.
  apply (proj1 (slot_resolves_to_one_variant sample_isValidIP)).
  - vm_compute. reflexivity.
  - reflexivity.
Defined.

(** C5, as the code has it. [z.string().ip()] is called without a
    version restriction, so the check of the library admits IPv4 dotted
    quads and IPv6 literals, which hold a colon; that is all the theorem
    assumes of it. Every slot accepted as an [Instance] then has a public
    and a private address that pass the check, each an IPv4 dotted quad or
    a literal holding a colon. A slot whose [public_ip] or [private_ip] is
    a string that is no IPv4 dotted quad and holds no colon makes the
    validation fail, with an issue at that field, unless its [enabled] is
    the literal [false]: then the slot validates to the [DisabledInstance]
    variant and the address is dropped. *)
Theorem invalid_address_rejected_unless_disabled :
  forall isValidIP : string -> bool,
    (forall s, isValidIP s = true -> valid_ipv4 s = true \/ occurs ":" s = true) ->
    (forall raw config,
        LabConfigSchema_parse isValidIP raw = inl config ->
        forall slot i,
          In slot (slots_by_priority config) -> slot = SlotInstance i ->
          (isValidIP (public_ip i) = true /\
           (valid_ipv4 (public_ip i) = true \/ occurs ":" (public_ip i) = true))
          /\ (isValidIP (private_ip i) = true /\
              (valid_ipv4 (private_ip i) = true \/ occurs ":" (private_ip i) = true)))
    /\ (forall raw name o f s,
          In name slot_names ->
          at_path raw ["instances"; name] = Some (JObject o) ->
          In f ["public_ip"; "private_ip"] ->
          get o f = Some (JString s) ->
          valid_ipv4 s = false -> occurs ":" s = false ->
          get o "enabled" <> Some (JBool false) ->
          exists E,
            LabConfigSchema_parse isValidIP raw = inr E /\
            In (Zod.Issue Zod.invalid_string (keys ["instances"; name; f]))
               (Zod.flatten E))
    /\ (forall p o f s,
          In f ["public_ip"; "private_ip"] ->
          get o f = Some (JString s) ->
          valid_ipv4 s = false -> occurs ":" s = false ->
          get o "enabled" = Some (JBool false) ->
          InstanceSlotSchema isValidIP p (Some (JObject o))
          = Zod.pure (SlotDisabled Disabled)).
Proof.
  intros isValidIP Hip.
  assert (Hno : forall s, valid_ipv4 s = false -> occurs ":" s = false ->
                          isValidIP s = false).
  { intros s H4 H6. destruct (isValidIP s) eqn:E; [|reflexivity].
    destruct (Hip s E) as [H | H]; congruence. }
  split; [| split].
  - intros raw config H slot i Hin ->.
    unfold LabConfigSchema_parse, Zod.parse in H.
    destruct (Zod.status (LabConfigSchema isValidIP [] (Some raw))) as [c | c |] eqn:Es;
      try discriminate.
    injection H as ->.
    destruct (config_slots_accepted isValidIP _ _ _ Es _ Hin) as (q & w & Hs).
    destruct (slot_inversion isValidIP q w _ Hs) as [(j & Hj & Hi) | (d & Hd & _)];
      [|discriminate].
    injection Hj as ->.
    destruct (instance_valid_addresses isValidIP q w _ Hi) as [Hpub Hpriv].
    auto.
  - intros raw name o f s Hname Hat Hf Hg H4 H6 Hen.
    apply parse_reports.
    apply (slot_reports_config isValidIP raw name (Some (JObject o)) _ Hname
             (at_path_slot _ _ _ Hat)).
    apply slot_reports.
    + apply (bad_address_reports isValidIP (keys ["instances"; name]) o f s Hf Hg
               (Hno s H4 H6)).
    + apply disabled_invalid. exact Hen.
  - intros p o f s Hf Hg H4 H6 Hen.
    apply slot_disabled.
    + apply (bad_address_reports isValidIP p o f s Hf Hg (Hno s H4 H6)).
    + apply disabled_valid. exact Hen.
Qed.

Lemma invalid_address_rejected_unless_disabled_witness :
  exists E,
    LabConfigSchema_parse sample_isValidIP
      (sample_config
         (JObject (sample_instance "1.1.1.1" "10.0.1.300" "~/.ssh/siem" "siem"))
         sample_disabled
         (JObject (sample_instance "3.3.3.3" "10.0.1.10" "~/.ssh/kali" "kali")) [])
    = inr E /\
    In (Zod.Issue Zod.invalid_string (keys ["instances"; "siem"; "private_ip"]))
       (Zod.flatten E).
Proof.
  apply (proj1 (proj2 (invalid_address_rejected_unless_disabled sample_isValidIP
                         (fun s H => or_introl H)))
           _ "siem" (sample_instance "1.1.1.1" "10.0.1.300" "~/.ssh/siem" "siem")
           "private_ip" "10.0.1.300").
  - simpl. auto.
  - reflexivity.
  - simpl. auto.
  - reflexivity.
  - vm_compute. reflexivity.
  - vm_compute. reflexivity.
  - discriminate.
Defined.

(** C5 fails as stated, twice over. The siem slot carries a [public_ip]
    that is no IPv4 address beside [enabled: false], and the payload is
    accepted, the slot as a [DisabledInstance]. And "::1" is no IPv4
    dotted quad, yet with a check that admits it, as the unrestricted
    check of the library does, the payload that carries it in the siem
    slot is accepted, the slot as an [Instance] holding that address. *)
Lemma non_ipv4_address_accepted :
  (valid_ipv4 "not-an-ip" = false
   /\ LabConfigSchema_parse sample_isValidIP
        (sample_config
           (JObject (("enabled", JBool false)
                     :: sample_instance "not-an-ip" "10.0.1.10" "~/.ssh/siem" "siem"))
           sample_disabled
           (JObject (sample_instance "3.3.3.3" "10.0.1.10" "~/.ssh/kali" "kali")) [])
      = inl (sample_lab (SlotDisabled Disabled) (SlotDisabled Disabled)
                        (sample_slot "3.3.3.3" "kali" true)))
  /\ (valid_ipv4 "::1" = false
      /\ forall isValidIP : string -> bool,
           isValidIP "::1" = true ->
           LabConfigSchema_parse isValidIP
             (sample_config
                (JObject (sample_instance "::1" "::1" "~/.ssh/siem" "siem"))
                sample_disabled sample_disabled [])
           = inl (sample_lab
                    (SlotInstance
                       {| public_ip := "::1"; private_ip := "::1";
                          ssh_key := "~/.ssh/siem"; ssh_user := "siem";
                          instance_type := "t3.large"; enabled := true;
                          ports := None |})
                    (SlotDisabled Disabled) (SlotDisabled Disabled))).
Proof.
  split; [split; vm_compute; reflexivity|].
  split; [vm_compute; reflexivity|].
  intros isValidIP H. vm_compute. rewrite H. vm_compute. reflexivity.
Qed.

(* ================================================================== *)
(** * Field-level violations *)

Ltac pick tac :=
  first [ solve [left; tac] | right; pick tac | solve [tac] ].

Ltac kind_leaf :=
  first [ apply string_reports | apply number_reports | apply boolean_reports
        | apply array_reports | apply object_reports ];
  match goal with
  | E : get _ _ = _ |- _ => rewrite E; cbn; first [exact I | reflexivity | assumption]
  end.

Ltac block_leaf :=
  first
    [ kind_leaf
    | match goal with
      | E : get _ _ = Some (JObject _) |- _ => rewrite E
      end;
      first [ apply lab_field_reports | apply network_field_reports
            | apply mcp_field_reports ];
      pick kind_leaf ].

Section Violations.
Variable isValidIP : string -> bool.

Lemma required_field_reports (raw : json) (names : list string) (k : kind) :
  In (names, k) required_fields ->
  violated true raw names k = true ->
  Zod.reports (LabConfigSchema isValidIP [] (Some raw))
              (Zod.Issue Zod.invalid_type (keys names)).
Proof.
  intros Hin Hv. unfold required_fields in Hin.
  repeat (destruct Hin as [Hin | Hin];
          [injection Hin as <- <-; unfold violated in Hv; cbn in Hv | ]);
    try contradiction.
  all: destruct raw as [| | | | |fs]; try discriminate Hv.
  all: repeat match type of Hv with
         | context [match get ?o ?f with _ => _ end] =>
             let E := fresh "E" in
             destruct (get o f) as [[]|] eqn:E; try discriminate Hv
         end.
  all: apply config_field_reports.
  all: pick block_leaf.
Qed.

Lemma optional_field_reports (raw : json) (names : list string) (k : kind) :
  In (names, k) optional_fields ->
  violated false raw names k = true ->
  Zod.reports (LabConfigSchema isValidIP [] (Some raw))
              (Zod.Issue Zod.invalid_type (keys names)).
Proof.
  intros Hin Hv. unfold optional_fields in Hin.
  repeat (destruct Hin as [Hin | Hin];
          [injection Hin as <- <-; unfold violated in Hv; cbn in Hv | ]);
    try contradiction.
  all: destruct raw as [| | | | |fs]; try discriminate Hv.
  all: repeat match type of Hv with
         | context [match get ?o ?f with _ => _ end] =>
             let E := fresh "E" in
             destruct (get o f) as [[]|] eqn:E; try discriminate Hv
         end.
  all: apply config_field_reports.
  all: right; right; left.
  all: match goal with
      | E : get _ _ = Some (JObject _) |- _ => rewrite E
      end; apply lab_field_reports.
  all: pick ltac:(match goal with
                  | E : get _ _ = Some _ |- _ => rewrite E
                  end; apply optional_reports, string_reports; reflexivity).
Qed.

(** A missing or mistyped field of an instance, in a slot whose
    [enabled] is not the literal [false]. *)
Lemma instance_violation_reports (p : Zod.path) (o : list (string * json))
      (f : string) (k : kind) :
  In (f, k) instance_fields ->
  violated true (JObject o) [f] k = true ->
  Zod.reports (InstanceSchema isValidIP p (Some (JObject o)))
              (Zod.Issue Zod.invalid_type (p ++ [Zod.Key f])).
Proof.
  intros Hin Hv. unfold instance_fields in Hin. apply instance_field_reports.
  repeat (destruct Hin as [Hin | Hin];
          [injection Hin as <- <-; unfold violated in Hv; cbn in Hv | ]);
    try contradiction.
  all: match type of Hv with
       | context [match get ?o ?f with _ => _ end] =>
           let E := fresh "E" in
           destruct (get o f) as [[]|] eqn:E; try discriminate Hv
       end.
  all: pick ltac:(first [apply string_ip_type_reports | apply string_reports];
                  first [exact I | reflexivity]).
Qed.

Lemma instance_optional_violation_reports (p : Zod.path) (o : list (string * json))
      (f : string) (k : kind) :
  In (f, k) optional_instance_fields ->
  violated false (JObject o) [f] k = true ->
  Zod.reports (InstanceSchema isValidIP p (Some (JObject o)))
              (Zod.Issue Zod.invalid_type (p ++ [Zod.Key f])).
Proof.
  intros Hin Hv. unfold optional_instance_fields in Hin. apply instance_field_reports.
  repeat (destruct Hin as [Hin | Hin];
          [injection Hin as <- <-; unfold violated in Hv; cbn in Hv | ]);
    try contradiction.
  all: match type of Hv with
       | context [match get ?o ?f with _ => _ end] =>
           let E := fresh "E" in
           destruct (get o f) as [[]|] eqn:E; try discriminate Hv
       end.
  all: pick ltac:(first [apply enabled_reports | apply ports_reports]; reflexivity).
Qed.

(** A slot that is missing or is no object. *)
Lemma slot_violation_reports (raw : json) (name : string) :
  In name slot_names ->
  violated true raw ["instances"; name] KObject = true ->
  Zod.reports (LabConfigSchema isValidIP [] (Some raw))
              (Zod.Issue Zod.invalid_type (keys ["instances"; name])).
Proof.
  intros Hname Hv. unfold violated in Hv. cbn [removelast last] in Hv.
  destruct (at_path raw ["instances"]) as [[| | | | |ifs]|] eqn:Ea; try discriminate Hv.
  apply (slot_reports_config isValidIP raw name (get ifs name) _ Hname).
  { rewrite Ea. reflexivity. }
  assert (Hbad : match get ifs name with
                 | Some w => has_kind KObject w = false
                 | None => True
                 end).
  { destruct (get ifs name); [apply negb_true_iff; exact Hv | exact I]. }
  apply slot_reports.
  - apply object_reports. exact Hbad.
  - destruct (get ifs name) as [[]|]; try reflexivity. discriminate Hbad.
Qed.

End Violations.

(* ================================================================== *)
(** * A parse is valid exactly when it found no issue *)

Lemma consistent_pure {A} (a : A) : Zod.consistent (Zod.pure a).
Proof. split; reflexivity. Qed.

Lemma consistent_fail {A} c p : Zod.consistent (@Zod.fail A c p).
Proof. split; discriminate. Qed.

Lemma consistent_rmap {A B} (f : A -> B) (r : Zod.result A) :
  Zod.consistent r -> Zod.consistent (Zod.rmap f r).
Proof. unfold Zod.consistent. rewrite is_ok_rmap. auto. Qed.

Lemma consistent_ap {A B} (f : Zod.result (A -> B)) (x : Zod.result A) :
  Zod.consistent f -> Zod.consistent x -> Zod.consistent (f <*> x).
Proof.
  unfold Zod.consistent. rewrite is_ok_ap, issues_ap. intros Hf Hx. split.
  - intros H. apply andb_prop in H. destruct H as [H1 H2].
    apply Hf in H1. apply Hx in H2. rewrite H1, H2. reflexivity.
  - intros H. apply app_eq_nil in H. destruct H as [H1 H2].
    apply Hf in H1. apply Hx in H2. rewrite H1, H2. reflexivity.
Qed.

Lemma consistent_string p v : Zod.consistent (Zod.string_ p v).
Proof. destruct v as [[]|]; first [apply consistent_pure | apply consistent_fail]. Qed.

Lemma consistent_number p v : Zod.consistent (Zod.number_ p v).
Proof. destruct v as [[]|]; first [apply consistent_pure | apply consistent_fail]. Qed.

Lemma consistent_boolean p v : Zod.consistent (Zod.boolean_ p v).
Proof. destruct v as [[]|]; first [apply consistent_pure | apply consistent_fail]. Qed.

Lemma consistent_literal_false p v : Zod.consistent (Zod.literal_false p v).
Proof.
  destruct v as [[| [] | | | |]|]; first [apply consistent_pure | apply consistent_fail].
Qed.

Lemma consistent_string_ip isValidIP p v : Zod.consistent (Zod.string_ip isValidIP p v).
Proof.
  destruct v as [[]|]; try apply consistent_fail.
  unfold Zod.string_ip. destruct (isValidIP s); [apply consistent_pure|].
  split; discriminate.
Qed.

Lemma consistent_optional {A} (inner : Zod.schema A) p v :
  (forall q w, Zod.consistent (inner q w)) -> Zod.consistent (Zod.optional inner p v).
Proof.
  intros H. destruct v; [apply consistent_rmap, H | apply consistent_pure].
Qed.

Lemma consistent_default {A} (d : A) (inner : Zod.schema (option A)) p v :
  (forall q w, Zod.consistent (inner q w)) -> Zod.consistent (Zod.default d inner p v).
Proof.
  intros H. destruct v; [apply consistent_rmap, H | apply consistent_pure].
Qed.

Lemma consistent_elements {A} (elem : Zod.schema A) p items :
  (forall q w, Zod.consistent (elem q w)) ->
  forall start, Zod.consistent (Zod.elements elem p start items).
Proof.
  intros H. induction items as [|x rest IH]; intros start; cbn [Zod.elements].
  - apply consistent_pure.
  - apply consistent_ap; [apply consistent_rmap, H | apply IH].
Qed.

Lemma consistent_array {A} (elem : Zod.schema A) p v :
  (forall q w, Zod.consistent (elem q w)) -> Zod.consistent (Zod.array elem p v).
Proof.
  intros H. destruct v as [[]|]; try apply consistent_fail.
  apply consistent_elements, H.
Qed.

Lemma consistent_entries {A} (value : Zod.schema A) p props :
  (forall q w, Zod.consistent (value q w)) ->
  Zod.consistent (Zod.entries value p props).
Proof.
  intros H. induction props as [|[k x] rest IH]; cbn [Zod.entries].
  - apply consistent_pure.
  - apply consistent_ap; [apply consistent_rmap, H | apply IH].
Qed.

Lemma consistent_record {A} (value : Zod.schema A) p v :
  (forall q w, Zod.consistent (value q w)) -> Zod.consistent (Zod.record value p v).
Proof.
  intros H. destruct v as [[]|]; try apply consistent_fail.
  apply consistent_entries, H.
Qed.

Lemma consistent_object {A} (shape : Zod.path -> list (string * json) -> Zod.result A) p v :
  (forall q o, Zod.consistent (shape q o)) -> Zod.consistent (Zod.object shape p v).
Proof.
  intros H. destruct v as [[]|]; try apply consistent_fail. apply H.
Qed.

Lemma consistent_union_from {A} (options : list (Zod.schema A)) p v :
  (forall o q w, In o options -> Zod.consistent (o q w)) ->
  forall dirty errors,
    match dirty with
    | Some r => Zod.is_ok r = false /\ Zod.issues r <> []
    | None => True
    end ->
    Zod.consistent (Zod.union_from options p v dirty errors).
Proof.
  induction options as [|o rest IH]; intros Hall dirty errors Hd; cbn [Zod.union_from].
  - destruct dirty as [r|].
    + destruct Hd as [H1 H2]. split; intros H; congruence.
    + split; discriminate.
  - pose proof (Hall o p v (or_introl eq_refl)) as Ho.
    unfold Zod.consistent, Zod.is_ok in Ho.
    destruct (Zod.status (o p v)) eqn:Es.
    + apply consistent_pure.
    + apply IH; [intros; apply Hall; simpl; auto|].
      destruct dirty; [exact Hd|]. split.
      * unfold Zod.is_ok. rewrite Es. reflexivity.
      * intros E. apply Ho in E. discriminate.
    + apply IH; [intros; apply Hall; simpl; auto | exact Hd].
Qed.

Lemma consistent_union {A} (options : list (Zod.schema A)) p v :
  (forall o q w, In o options -> Zod.consistent (o q w)) ->
  Zod.consistent (Zod.union options p v).
Proof. intros H. apply consistent_union_from; [exact H | exact I]. Qed.

Ltac consistency :=
  repeat first
    [ apply consistent_pure | apply consistent_fail | apply consistent_string
    | apply consistent_number | apply consistent_boolean
    | apply consistent_literal_false | apply consistent_string_ip
    | apply consistent_ap | apply consistent_rmap
    | apply consistent_optional; intros | apply consistent_default; intros
    | apply consistent_array; intros | apply consistent_record; intros
    | apply consistent_object; intros ].

Section Consistency.
Variable isValidIP : string -> bool.

Lemma consistent_instance p v : Zod.consistent (InstanceSchema isValidIP p v).
Proof. unfold InstanceSchema, Zod.field. consistency. Qed.

Lemma consistent_disabled p v : Zod.consistent (DisabledInstanceSchema p v).
Proof. unfold DisabledInstanceSchema, Zod.field. consistency. Qed.

Lemma consistent_slot p v : Zod.consistent (InstanceSlotSchema isValidIP p v).
Proof.
  apply consistent_union. intros o q w [<- | [<- | []]]; apply consistent_rmap.
  - apply consistent_instance.
  - apply consistent_disabled.
Qed.

Lemma consistent_config p v : Zod.consistent (LabConfigSchema isValidIP p v).
Proof.
  unfold LabConfigSchema, LabSchema, InstancesSchema, NetworkSchema, MCPConfigSchema,
    Zod.field.
  consistency; apply consistent_slot.
Qed.

End Consistency.

(* ================================================================== *)
(** * Unknown properties *)

Lemma get_unknown (fields1 fields2 : list (string * json)) (k key : string) (v : json) :
  k <> key ->
  get (fields1 ++ (k, v) :: fields2) key = get (fields1 ++ fields2) key.
Proof.
  intros Hk. induction fields1 as [|[k1 v1] rest IH]; simpl.
  - destruct (String.eqb_spec k key); [contradiction | reflexivity].
  - rewrite IH. reflexivity.
Qed.

Ltac unknown_key :=
  intros p fields1 fields2 k v Hk;
  cbv [In top_level_keys lab_keys instances_keys network_keys mcp_keys instance_keys] in Hk;
  unfold Zod.object, Zod.field;
  rewrite !(get_unknown fields1 fields2 k) by (intros ->; apply Hk; tauto);
  reflexivity.

Section UnknownKeys.
Variable isValidIP : string -> bool.

Lemma config_ignores_unknown :
  Zod.ignores_unknown (LabConfigSchema isValidIP) top_level_keys.
Proof. unfold LabConfigSchema. unknown_key. Qed.

Lemma lab_ignores_unknown : Zod.ignores_unknown LabSchema lab_keys.
Proof. unfold LabSchema. unknown_key. Qed.

Lemma instances_ignores_unknown :
  Zod.ignores_unknown (InstancesSchema isValidIP) instances_keys.
Proof. unfold InstancesSchema. unknown_key. Qed.

Lemma network_ignores_unknown : Zod.ignores_unknown NetworkSchema network_keys.
Proof. unfold NetworkSchema. unknown_key. Qed.

Lemma mcp_ignores_unknown : Zod.ignores_unknown MCPConfigSchema mcp_keys.
Proof. unfold MCPConfigSchema. unknown_key. Qed.

Lemma slot_ignores_unknown :
  Zod.ignores_unknown (InstanceSlotSchema isValidIP) instance_keys.
Proof.
  unfold InstanceSlotSchema, Zod.union, InstanceSchema, DisabledInstanceSchema.
  intros p fields1 fields2 k v Hk. cbv [In instance_keys] in Hk.
  cbn [Zod.union_from]. unfold Zod.object, Zod.field.
  rewrite !(get_unknown fields1 fields2 k) by (intros ->; apply Hk; tauto).
  reflexivity.
Qed.

(** An element of [mcp.allowed_targets] that is no string. *)
Lemma target_violation_reports (raw : json) (items : list json) (n : nat) (w : json) :
  at_path raw ["mcp"; "allowed_targets"] = Some (JArray items) ->
  nth_error items n = Some w -> has_kind KString w = false ->
  Zod.reports (LabConfigSchema isValidIP [] (Some raw))
    (Zod.Issue Zod.invalid_type (keys ["mcp"; "allowed_targets"] ++ [Zod.Index n])).
Proof.
  cbn [at_path]. intros Hat Hn Hw.
  destruct raw as [| | | | |fs]; try discriminate Hat.
  destruct (get fs "mcp") as [[| | | | |ms]|] eqn:Em; try discriminate Hat.
  destruct (get ms "allowed_targets") as [t|] eqn:Et; try discriminate Hat.
  injection Hat as ->.
  apply config_field_reports. do 5 right. rewrite Em.
  apply mcp_field_reports. right. left. rewrite Et.
  cbn [Zod.array]. apply (elements_reports _ _ _ 0%nat n w _ Hn).
  apply string_reports. exact Hw.
Qed.

End UnknownKeys.

(* ================================================================== *)
(** * Validation of the configuration *)

Lemma entries_reports {A} (value : Zod.schema A) (p : Zod.path)
      (props : list (string * json)) (k : string) (w : json) (i : Zod.issue) :
  In (k, w) props ->
  Zod.reports (value (p ++ [Zod.Key k]) (Some w)) i ->
  Zod.reports (Zod.entries value p props) i.
Proof.
  induction props as [|[k1 x] rest IH]; intros Hin Hr; [destruct Hin|].
  cbn [Zod.entries]. destruct Hin as [Heq | Hin].
  - injection Heq as -> ->. apply reports_ap_l, reports_rmap, Hr.
  - apply reports_ap_r, IH; assumption.
Qed.

(** A property of [ports] that is no number. *)
Lemma port_violation_reports (isValidIP : string -> bool) (p : Zod.path)
      (o ports : list (string * json)) (k : string) (w : json) :
  get o "ports" = Some (JObject ports) ->
  In (k, w) (own_properties ports) -> has_kind KNumber w = false ->
  Zod.reports (InstanceSchema isValidIP p (Some (JObject o)))
              (Zod.Issue Zod.invalid_type (p ++ [Zod.Key "ports"; Zod.Key k])).
Proof.
  intros Hg Hin Hw. apply instance_field_reports. do 6 right. rewrite Hg.
  apply optional_reports. cbn [Zod.record].
  apply (entries_reports _ _ _ k w _ Hin).
  rewrite <- app_assoc. apply number_reports. exact Hw.
Qed.

(** C7, as the code has it. Validation is all or nothing: the payload is
    accepted, or refused with an error that is not empty. A required
    field that is missing or of the wrong primitive kind, an optional
    field, an element of [allowed_targets] or a port of the wrong kind,
    at any level of the shape, makes the validation fail, and each such
    violation is named in the one error thrown, at its own path (inside
    the union issue of its slot for the fields of an instance). The
    fields of an instance count when the slot's [enabled] is not the
    literal [false]. A property the shape does not name is no violation:
    every object of the shape parses the same with or without it. *)
Theorem validation_rejects_and_enumerates :
  forall isValidIP : string -> bool,
    (forall raw,
        ((exists config, LabConfigSchema_parse isValidIP raw = inl config) \/
         (exists E, LabConfigSchema_parse isValidIP raw = inr E /\ E <> []))
        /\ (forall names k,
              (In (names, k) required_fields /\ violated true raw names k = true)
              \/ (In (names, k) optional_fields /\ violated false raw names k = true)
              \/ (exists name, In name slot_names /\ names = ["instances"; name] /\
                               k = KObject /\ violated true raw names k = true) ->
              exists E, LabConfigSchema_parse isValidIP raw = inr E /\
                        In (Zod.Issue Zod.invalid_type (keys names)) (Zod.flatten E))
        /\ (forall name o f k,
              In name slot_names ->
              at_path raw ["instances"; name] = Some (JObject o) ->
              get o "enabled" <> Some (JBool false) ->
              (In (f, k) instance_fields /\ violated true (JObject o) [f] k = true)
              \/ (In (f, k) optional_instance_fields /\
                  violated false (JObject o) [f] k = true) ->
              exists E, LabConfigSchema_parse isValidIP raw = inr E /\
                        In (Zod.Issue Zod.invalid_type (keys ["instances"; name; f]))
                           (Zod.flatten E))
        /\ (forall name o ports k w,
              In name slot_names ->
              at_path raw ["instances"; name] = Some (JObject o) ->
              get o "enabled" <> Some (JBool false) ->
              get o "ports" = Some (JObject ports) ->
              In (k, w) (own_properties ports) -> has_kind KNumber w = false ->
              exists E, LabConfigSchema_parse isValidIP raw = inr E /\
                        In (Zod.Issue Zod.invalid_type
                              (keys ["instances"; name; "ports"; k]))
                           (Zod.flatten E))
        /\ (forall items n w,
              at_path raw ["mcp"; "allowed_targets"] = Some (JArray items) ->
              nth_error items n = Some w -> has_kind KString w = false ->
              exists E, LabConfigSchema_parse isValidIP raw = inr E /\
                        In (Zod.Issue Zod.invalid_type
                              (keys ["mcp"; "allowed_targets"] ++ [Zod.Index n]))
                           (Zod.flatten E)))
    /\ Zod.ignores_unknown (LabConfigSchema isValidIP) top_level_keys
    /\ Zod.ignores_unknown LabSchema lab_keys
    /\ Zod.ignores_unknown (InstancesSchema isValidIP) instances_keys
    /\ Zod.ignores_unknown (InstanceSlotSchema isValidIP) instance_keys
    /\ Zod.ignores_unknown NetworkSchema network_keys
    /\ Zod.ignores_unknown MCPConfigSchema mcp_keys.
Proof.
  intros isValidIP.
  split; [| auto 10 using config_ignores_unknown, lab_ignores_unknown,
              instances_ignores_unknown, slot_ignores_unknown,
              network_ignores_unknown, mcp_ignores_unknown].
  intros raw. split; [| split; [| split; [| split]]].
  - unfold LabConfigSchema_parse, Zod.parse.
    pose proof (consistent_config isValidIP [] (Some raw)) as Hc.
    unfold Zod.consistent, Zod.is_ok in Hc.
    destruct (Zod.status (LabConfigSchema isValidIP [] (Some raw))); eauto;
      right; eexists; (split; [reflexivity|]); intros E; apply Hc in E; discriminate.
  - intros names k [[Hin Hv] | [[Hin Hv] | (name & Hname & -> & -> & Hv)]];
      apply parse_reports.
    + apply (required_field_reports isValidIP raw names k); assumption.
    + apply (optional_field_reports isValidIP raw names k); assumption.
    + apply slot_violation_reports; assumption.
  - intros name o f k Hname Hat Hen Hv. apply parse_reports.
    apply (slot_reports_config isValidIP raw name (Some (JObject o)) _ Hname
             (at_path_slot _ _ _ Hat)).
    apply slot_reports; [| apply disabled_invalid; exact Hen].
    destruct Hv as [[Hin Hv] | [Hin Hv]].
    + apply (instance_violation_reports isValidIP (keys ["instances"; name]) o f k Hin Hv).
    + apply (instance_optional_violation_reports isValidIP
               (keys ["instances"; name]) o f k Hin Hv).
  - intros name o ports k w Hname Hat Hen Hg Hin Hw. apply parse_reports.
    apply (slot_reports_config isValidIP raw name (Some (JObject o)) _ Hname
             (at_path_slot _ _ _ Hat)).
    apply slot_reports; [| apply disabled_invalid; exact Hen].
    apply (port_violation_reports isValidIP (keys ["instances"; name]) o ports k w
             Hg Hin Hw).
  - intros items n w Hat Hn Hw. apply parse_reports.
    apply (target_violation_reports isValidIP raw items n w Hat Hn Hw).
Qed.

Lemma validation_rejects_and_enumerates_witness :
  exists E,
    LabConfigSchema_parse sample_isValidIP
      (JObject [("version", JNumber (QArith_base.Qmake 1 1));
                ("lab", JObject [("vpc_cidr", JString "10.0.0.0/16")])])
    = inr E /\
    In (Zod.Issue Zod.invalid_type (keys ["lab"; "name"])) (Zod.flatten E).
Proof.
  apply (proj1 (proj2 (proj1 (validation_rejects_and_enumerates sample_isValidIP) _))
           ["lab"; "name"] KString).
  left. split.
  - simpl. auto 10.
  - reflexivity.
Defined.

(** Two violations in one payload, [version] of the wrong kind and
    [lab.name] missing, are both in the error, beside the issues of the
    blocks that are absent. *)
Example two_violations_one_error :
  LabConfigSchema_parse sample_isValidIP
    (JObject [("version", JNumber (QArith_base.Qmake 1 1));
              ("generated", JString "2025-01-01T00:00:00Z");
              ("lab", JObject [("vpc_cidr", JString "10.0.0.0/16")])])
  = inr [ Zod.Issue Zod.invalid_type (keys ["version"]);
          Zod.Issue Zod.invalid_type (keys ["lab"; "name"]);
          Zod.Issue Zod.invalid_type (keys ["instances"]);
          Zod.Issue Zod.invalid_type (keys ["network"]);
          Zod.Issue Zod.invalid_type (keys ["mcp"]) ].
Proof. vm_compute. reflexivity. Qed.

(** C7 fails as stated: a payload with a property the shape does not
    name, at the top level, is accepted, and the property is dropped. *)
Lemma unknown_field_accepted :
  get [("unexpected", JString "x")] "unexpected" = Some (JString "x")
  /\ ~ In "unexpected" top_level_keys
  /\ LabConfigSchema_parse sample_isValidIP
       (sample_config
          (JObject (sample_instance "1.1.1.1" "10.0.1.10" "~/.ssh/siem" "siem"))
          sample_disabled
          (JObject (sample_instance "3.3.3.3" "10.0.1.10" "~/.ssh/kali" "kali"))
          [("unexpected", JString "x")])
     = inl (sample_lab (sample_slot "1.1.1.1" "siem" true)
                       (SlotDisabled Disabled)
                       (sample_slot "3.3.3.3" "kali" true)).
Proof.
  split; [reflexivity|]. split; [|vm_compute; reflexivity].
  cbv [In top_level_keys]. intros H.
  repeat (destruct H as [H | H]; [discriminate H|]). exact H.
Qed.

(** C10. The [enabled] flag plays no part in selection. A slot that
    carries all the fields of an instance together with [enabled: false]
    validates to the [Instance] variant, with its flag false; such a slot
    is matched on its addresses like any other, because each branch asks
    for the presence of [ssh_key] only: rewriting the flags of a
    configuration never changes the outcome, and an [Instance] slot whose
    flag is false has its own credentials returned when it is the first
    in priority to hold the target. *)
Theorem selectCredentials_ignores_enabled :
  (forall (isValidIP : string -> bool) p o,
      well_formed_instance isValidIP o = true ->
      get o "enabled" = Some (JBool false) ->
      exists i, InstanceSlotSchema isValidIP p (Some (JObject o))
                = Zod.pure (SlotInstance i) /\
                enabled i = false /\ has_ssh_key (SlotInstance i) = true)
  /\ (forall f target config defaultUsername,
        selectCredentials target (with_enabled f config) defaultUsername
        = selectCredentials target config defaultUsername)
  /\ (forall target slot,
        slot_matches target slot = true -> has_ssh_key slot = true)
  /\ (forall target config defaultUsername i,
        enabled i = false ->
        find (slot_matches target) (slots_by_priority config) = Some (SlotInstance i) ->
        selectCredentials target config defaultUsername
        = inl {| sshKey := ssh_key i; username := ssh_user i |}).
Proof.
  split; [| split; [| split]].
  - intros isValidIP p o Hwf He.
    destruct (instance_well_formed isValidIP p o false Hwf (or_intror He))
      as (i & Hi & Hen & _).
    exists i. split; [| split; [exact Hen | reflexivity]].
    apply slot_instance. rewrite Hi. reflexivity.
  - intros f target [ver gen lb [s v k] net m] dflt.
    unfold selectCredentials, with_enabled. cbn [instances siem victim kali].
    destruct s as [s|ds], v as [v|dv], k as [k|dk]; cbn;
      repeat match goal with
             | |- context [if ?b then _ else _] => destruct b
             end; reflexivity.
  - intros target [i|d]; simpl; [reflexivity | discriminate].
  - intros target config dflt i _ Hf.
    destruct (first_match_decides target config dflt _ Hf) as (j & Hj & Hs).
    injection Hj as <-. exact Hs.
Qed.

Lemma selectCredentials_ignores_enabled_witness :
  selectCredentials "1.1.1.1"
    (sample_lab (sample_slot "1.1.1.1" "siem-admin" false)
                (sample_slot "2.2.2.2" "victim-admin" true)
                (sample_slot "3.3.3.3" "kali-admin" true)) "kali"
  = inl {| sshKey := "~/.ssh/siem-admin"; username := "siem-admin" |}.
Proof.
  apply (proj2 (proj2 (proj2 selectCredentials_ignores_enabled)) "1.1.1.1"
           (sample_lab (sample_slot "1.1.1.1" "siem-admin" false)
                       (sample_slot "2.2.2.2" "victim-admin" true)
                       (sample_slot "3.3.3.3" "kali-admin" true)) "kali"
           (sample_record "1.1.1.1" "siem-admin" false) eq_refl eq_refl).
Defined.

(* ================================================================== *)
(** * More on the network policy *)


Lemma ToUint32_range (x : JS.number) : 0 <= JS.ToUint32 x < 2 ^ 32.
Proof.
  destruct x; simpl; try (pow2; lia).
  apply Z.mod_pos_bound. pow2. lia.
Qed.

Lemma ToInt32_range (x : JS.number) : - 2 ^ 31 <= JS.ToInt32 x < 2 ^ 31.
Proof.
  unfold JS.ToInt32. pose proof (ToUint32_range x) as H.
  destruct (Z.leb_spec (2 ^ 31) (JS.ToUint32 x)); pow2; lia.
Qed.

Lemma ToInt32_mod (z : Z) : JS.ToInt32 (JS.Fin z) mod 2 ^ 32 = z mod 2 ^ 32.
Proof.
  unfold JS.ToInt32. cbn [JS.ToUint32].
  destruct (Z.leb_spec (2 ^ 31) (z mod 2 ^ 32)).
  - replace (z mod 2 ^ 32 - 2 ^ 32) with (z mod 2 ^ 32 + (-1) * 2 ^ 32) by ring.
    rewrite Z.mod_add by (pow2; lia). apply Z.mod_mod. pow2. lia.
  - apply Z.mod_mod. pow2. lia.
Qed.

(** X1. Whatever the string, [ipToNumber] returns an unsigned 32-bit
    integer: never NaN, never negative, never [2^32] or more. *)
Theorem ipToNumber_uint32 :
  forall ip : string, exists n, ipToNumber ip = JS.Fin n /\ 0 <= n < 2 ^ 32.
Proof.
  intros ip. unfold ipToNumber, JS.ushr.
  change (JS.ToUint32 (JS.Fin 0) mod 32) with 0. change (2 ^ 0) with 1.
  eexists. split; [reflexivity|]. rewrite Z.div_1_r. apply ToUint32_range.
Qed.

(** One step of the reduction on an accumulator that is a signed 32-bit
    integer plus an octet. *)
Lemma step_wrap (w o : Z) :
  0 <= o <= 255 ->
  exists w', JS.add (JS.shl (JS.Fin w) (JS.Fin 8)) (JS.Fin o) = JS.Fin w' /\
             - 2 ^ 31 <= w' < 2 ^ 31 + 256 /\
             w' mod 2 ^ 32 = (w * 256 + o) mod 2 ^ 32.
Proof.
  intros Ho. unfold JS.shl.
  change (JS.ToUint32 (JS.Fin 8) mod 32) with 8. change (2 ^ 8) with 256.
  set (y := JS.ToInt32 (JS.Fin (JS.ToInt32 (JS.Fin w) * 256))).
  assert (Hy : - 2 ^ 31 <= y < 2 ^ 31) by apply ToInt32_range.
  assert (Hm : y mod 2 ^ 32 = (w * 256) mod 2 ^ 32).
  { unfold y. rewrite ToInt32_mod.
    rewrite <- Z.mul_mod_idemp_l by (pow2; lia).
    rewrite ToInt32_mod. apply Z.mul_mod_idemp_l. pow2. lia. }
  exists (y + o). split; [| split].
  - cbn [JS.add]. apply round_double_small. pow2. lia.
  - pow2. lia.
  - rewrite <- Zplus_mod_idemp_l, Hm. apply Zplus_mod_idemp_l.
Qed.

Lemma fold_octets (parts : list string) :
  Forall (fun s => valid_octet s = true) parts ->
  forall w v,
    - 2 ^ 31 <= w < 2 ^ 31 + 256 -> w mod 2 ^ 32 = v mod 2 ^ 32 ->
    exists w',
      fold_left (fun acc octet => JS.add (JS.shl acc (JS.Fin 8)) (JS.parseInt octet))
                parts (JS.Fin w) = JS.Fin w' /\
      w' mod 2 ^ 32
      = fold_left (fun acc o => acc * 256 + o) (map (JS.digitsValue 0) parts) v mod 2 ^ 32.
Proof.
  induction 1 as [|s rest Hs Hrest IH]; intros w v Hw Hv; cbn [fold_left map].
  - exists w. auto.
  - destruct (valid_octet_parse s Hs) as [-> Ho].
    destruct (step_wrap w (JS.digitsValue 0 s) Ho) as (w1 & -> & Hr & Hm).
    apply IH; [exact Hr|]. rewrite Hm.
    rewrite <- Zplus_mod_idemp_l, <- Z.mul_mod_idemp_l, Hv by (pow2; lia).
    rewrite Z.mul_mod_idemp_l, Zplus_mod_idemp_l by (pow2; lia). reflexivity.
Qed.

(** X2. On a string whose dot-separated parts are all valid octets,
    however many they are, [ipToNumber] is their big-endian value modulo
    [2^32]: the octets beyond the last four are shifted out. With five
    octets the result is the packing of the last four. *)
Theorem ipToNumber_any_octets :
  forall ip : string,
    Forall (fun s => valid_octet s = true) (JS.split "." ip) ->
    ipToNumber ip = JS.Fin (octets_value (octet_values ip) mod 2 ^ 32)
    /\ forall a b c d e, octet_values ip = [a; b; c; d; e] ->
         ipToNumber ip = JS.Fin (pack_be b c d e).
Proof.
  intros ip H.
  assert (E : ipToNumber ip = JS.Fin (octets_value (octet_values ip) mod 2 ^ 32)).
  { unfold ipToNumber.
    destruct (fold_octets _ H 0 0) as (w & -> & Hm); [pow2; lia | reflexivity |].
    unfold JS.ushr. change (JS.ToUint32 (JS.Fin 0) mod 32) with 0. change (2 ^ 0) with 1.
    rewrite Z.div_1_r. cbn [JS.ToUint32]. rewrite Hm. reflexivity. }
  split; [exact E|].
  intros a b c d e Hv. rewrite E. f_equal. clear E.
  unfold octet_values in *.
  destruct (JS.split "." ip) as [|sa [|sb [|sc [|sd [|se [|x l]]]]]]; try discriminate.
  injection Hv as <- <- <- <- <-.
  inversion H as [|? ? Ha H1]; subst. inversion H1 as [|? ? Hb H2]; subst.
  inversion H2 as [|? ? Hc H3]; subst. inversion H3 as [|? ? Hd H4]; subst.
  inversion H4 as [|? ? He H5]; subst.
  apply valid_octet_parse in Ha, Hb, Hc, Hd, He.
  unfold octets_value, pack_be. cbn [map fold_left].
  replace (((((0 * 256 + JS.digitsValue 0 sa) * 256 + JS.digitsValue 0 sb) * 256
              + JS.digitsValue 0 sc) * 256 + JS.digitsValue 0 sd) * 256
            + JS.digitsValue 0 se)
    with (JS.digitsValue 0 sb * 2 ^ 24 + JS.digitsValue 0 sc * 2 ^ 16
          + JS.digitsValue 0 sd * 2 ^ 8 + JS.digitsValue 0 se
          + JS.digitsValue 0 sa * 2 ^ 32) by (pow2; ring).
  rewrite Z.mod_add by (pow2; lia). apply Z.mod_small. pow2. lia.
Qed.

Lemma ipToNumber_any_octets_witness :
  ipToNumber "9.10.0.1.5" = JS.Fin (octets_value (octet_values "9.10.0.1.5") mod 2 ^ 32)
  /\ forall a b c d e, octet_values "9.10.0.1.5" = [a; b; c; d; e] ->
       ipToNumber "9.10.0.1.5" = JS.Fin (pack_be b c d e).
Proof.
  apply (ipToNumber_any_octets "9.10.0.1.5"). repeat constructor.
Defined.

(** X3. When the last dot-separated part of a string does not start
    with a number, [ipToNumber] is 0, whatever the parts before it are. *)
Theorem ipToNumber_unparsable_last :
  forall ip : string,
    JS.parseInt (last (JS.split "." ip) EmptyString) = JS.NaN ->
    ipToNumber ip = JS.Fin 0.
Proof.
  intros ip H. unfold ipToNumber.
  destruct (@exists_last _ (JS.split "." ip)) as (l & x & E).
  { destruct ip; simpl; [discriminate|].
    destruct (Ascii.eqb a "."); [discriminate|].
    destruct (JS.split "." ip); discriminate. }
  rewrite E in *. rewrite last_last in H.
  rewrite fold_left_app. cbn [fold_left]. rewrite H.
  destruct (JS.shl _ _); reflexivity.
Qed.

Lemma ipToNumber_unparsable_last_witness : ipToNumber "10.0.1.x" = JS.Fin 0.
Proof. apply (ipToNumber_unparsable_last "10.0.1.x"). reflexivity. Defined.

Lemma land_all_ones (x : Z) : 0 <= x < 2 ^ 32 -> Z.land x 4294967295 = x.
Proof.
  intros H. change 4294967295 with (Z.ones 32).
  rewrite Z.land_ones by lia. apply Z.mod_small. exact H.
Qed.

(** X4. A range whose prefix is missing or does not start with a number
    is compared under the all-one mask: the target is inside exactly when
    it packs to the same word as the network part. *)
Theorem isIpInCidr_without_prefix :
  forall ip cidr : string,
    JS.parseInt (JS.ToString (nth_error (JS.split "/" cidr) 1)) = JS.NaN ->
    exists a b,
      ipToNumber ip = JS.Fin a /\
      ipToNumber (nth 0 (JS.split "/" cidr) EmptyString) = JS.Fin b /\
      isIpInCidr ip cidr = (a =? b).
Proof.
  intros ip cidr H. unfold isIpInCidr. cbv zeta. rewrite H.
  destruct (ipToNumber_uint32 ip) as (a & -> & Ha).
  destruct (ipToNumber_uint32 (nth 0 (JS.split "/" cidr) EmptyString)) as (b & -> & Hb).
  exists a, b. split; [reflexivity|]. split; [reflexivity|].
  change (JS.ushr (JS.shl (JS.Fin 4294967295) (JS.sub (JS.Fin 32) JS.NaN)) (JS.Fin 0))
    with (JS.Fin 4294967295).
  rewrite band_strict_eq by (pow2; lia).
  rewrite !land_all_ones by assumption. reflexivity.
Qed.

Lemma isIpInCidr_without_prefix_witness :
  exists a b,
    ipToNumber "10.0.1.5" = JS.Fin a /\
    ipToNumber (nth 0 (JS.split "/" "10.0.1.5") EmptyString) = JS.Fin b /\
    isIpInCidr "10.0.1.5" "10.0.1.5" = (a =? b).
Proof. apply (isIpInCidr_without_prefix "10.0.1.5" "10.0.1.5"). reflexivity. Defined.

Lemma split_at_separator (sep : ascii) (s r : string) :
  occurs sep s = false ->
  JS.split sep (s ++ String sep r) = s :: JS.split sep r.
Proof.
  induction s as [|c s IH]; simpl; intros H.
  - rewrite Ascii.eqb_refl. reflexivity.
  - apply orb_false_elim in H. destruct H as [Hc Hs].
    rewrite Hc, IH by exact Hs. reflexivity.
Qed.

(** X5. An address that holds no slash is inside every range written
    with the address itself as network part, whatever follows the slash. *)
Theorem isIpInCidr_own_network :
  forall ip prefixLength : string,
    occurs "/" ip = false ->
    isIpInCidr ip (ip ++ String "/" prefixLength) = true.
Proof.
  intros ip pl H. unfold isIpInCidr. rewrite split_at_separator by exact H.
  cbn [nth]. cbv zeta. unfold JS.strict_eq, JS.band. apply Z.eqb_refl.
Qed.

Lemma isIpInCidr_own_network_witness :
  isIpInCidr "10.0.1.5" ("10.0.1.5" ++ String "/" "0") = true.
Proof. apply (isIpInCidr_own_network "10.0.1.5" "0"). reflexivity. Defined.

(** X6. The check over a list of ranges is the disjunction of the
    checks over its parts: it distributes over concatenation, does not
    depend on the order of the ranges, and a target allowed by a list is
    allowed by every list that includes it. *)
Theorem isTargetAllowed_ranges_compose :
  forall target : string,
    (forall l1 l2, isTargetAllowed target (l1 ++ l2)
                   = isTargetAllowed target l1 || isTargetAllowed target l2)
    /\ (forall l1 l2, Permutation l1 l2 ->
                      isTargetAllowed target l1 = isTargetAllowed target l2)
    /\ (forall l1 l2, incl l1 l2 -> isTargetAllowed target l1 = true ->
                      isTargetAllowed target l2 = true).
Proof.
  intros target. split; [| split].
  - intros l1 l2. rewrite !isTargetAllowed_existsb. apply existsb_app.
  - intros l1 l2 HP. rewrite !isTargetAllowed_existsb.
    induction HP; simpl.
    + reflexivity.
    + rewrite IHHP. reflexivity.
    + destruct (isIpInCidr target y), (isIpInCidr target x); reflexivity.
    + congruence.
  - intros l1 l2 Hi. rewrite !isTargetAllowed_existsb, !existsb_exists.
    intros (r & Hr & Hm). exists r. auto.
Qed.

Lemma prefix_mask_nested (p q : Z) :
  0 <= q <= p -> p <= 32 ->
  Z.land (prefix_mask p) (prefix_mask q) = prefix_mask q.
Proof.
  intros Hq Hp. apply Z.bits_inj'. intros i Hi.
  rewrite Z.land_spec, !prefix_mask_bits by lia.
  destruct (Z.leb_spec (32 - q) i), (Z.leb_spec (32 - p) i), (Z.ltb_spec i 32);
    try reflexivity; lia.
Qed.

(** X7. For a valid target and two valid ranges on the same network
    part, a target inside the range with the longer prefix is inside the
    range with the shorter one. *)
Theorem isIpInCidr_wider_prefix :
  forall target inner outer network p q : string,
    valid_ipv4 target = true ->
    valid_cidr 1 inner = true -> valid_cidr 1 outer = true ->
    JS.split "/" inner = [network; p] -> JS.split "/" outer = [network; q] ->
    JS.digitsValue 0 q <= JS.digitsValue 0 p ->
    isIpInCidr target inner = true -> isIpInCidr target outer = true.
Proof.
  intros target inner outer network p q Ht Hi Ho Ei Eo Hle.
  rewrite !isIpInCidr_valid by assumption.
  unfold valid_cidr in Hi, Ho. unfold spec_in_range. rewrite Ei in *. rewrite Eo in *.
  apply andb_prop in Hi, Ho. destruct Hi as [Hn Hp], Ho as [_ Hq].
  apply valid_prefix_parse in Hp, Hq. destruct Hp as [_ Hp], Hq as [_ Hq].
  destruct (spec_address target) as [t|]; [|discriminate].
  destruct (spec_address network) as [n|]; [|discriminate].
  cbv zeta. rewrite !Z.eqb_eq. intros H.
  rewrite <- (prefix_mask_nested (JS.digitsValue 0 p) (JS.digitsValue 0 q)) by lia.
  rewrite !Z.land_assoc, H. reflexivity.
Qed.

Lemma isIpInCidr_wider_prefix_witness :
  isIpInCidr "10.0.1.5" "10.0.1.0/16" = true.
Proof.
  apply (isIpInCidr_wider_prefix "10.0.1.5" "10.0.1.0/24" "10.0.1.0/16" "10.0.1.0" "24" "16");
    try reflexivity.
  vm_compute. discriminate.
Defined.

Lemma pack_be_inj (a b c d a' b' c' d' : Z) :
  0 <= a <= 255 -> 0 <= b <= 255 -> 0 <= c <= 255 -> 0 <= d <= 255 ->
  0 <= a' <= 255 -> 0 <= b' <= 255 -> 0 <= c' <= 255 -> 0 <= d' <= 255 ->
  pack_be a b c d = pack_be a' b' c' d' ->
  a = a' /\ b = b' /\ c = c' /\ d = d'.
Proof. unfold pack_be. pow2. lia. Qed.

Lemma valid_octets (s : string) :
  valid_ipv4 s = true ->
  exists a b c d,
    octet_values s = [a; b; c; d] /\ spec_address s = Some (pack_be a b c d) /\
    0 <= a <= 255 /\ 0 <= b <= 255 /\ 0 <= c <= 255 /\ 0 <= d <= 255.
Proof.
  unfold valid_ipv4, octet_values, spec_address.
  destruct (JS.split "." s) as [|a [|b [|c [|d [|e l]]]]]; try discriminate.
  intros H.
  apply andb_prop in H. destruct H as [H Hd].
  apply andb_prop in H. destruct H as [H Hc].
  apply andb_prop in H. destruct H as [Ha Hb].
  apply valid_octet_parse in Ha, Hb, Hc, Hd.
  cbn [map]. do 4 eexists. split; [reflexivity|]. split; [reflexivity|]. tauto.
Qed.

(** X8. For a valid target, a valid range with prefix 32 matches exactly
    the addresses whose four octets have the values of the network's
    octets (leading zeros apart). *)
Theorem isIpInCidr_prefix_32 :
  forall target cidr network prefixLength : string,
    valid_ipv4 target = true -> valid_cidr 1 cidr = true ->
    JS.split "/" cidr = [network; prefixLength] ->
    JS.digitsValue 0 prefixLength = 32 ->
    (isIpInCidr target cidr = true <-> octet_values target = octet_values network).
Proof.
  intros target cidr network pl Ht Hc Es Hp.
  rewrite isIpInCidr_valid by assumption.
  unfold valid_cidr in Hc. unfold spec_in_range. rewrite Es in *.
  apply andb_prop in Hc. destruct Hc as [Hn _].
  destruct (valid_octets target Ht) as (a & b & c & d & -> & -> & Ra & Rb & Rc & Rd).
  destruct (valid_octets network Hn) as (a' & b' & c' & d' & -> & -> & Ra' & Rb' & Rc' & Rd').
  cbv zeta. rewrite Hp. change (prefix_mask 32) with 4294967295.
  rewrite !land_all_ones by (unfold pack_be; pow2; lia).
  rewrite Z.eqb_eq. split.
  - intros H. apply pack_be_inj in H; try assumption.
    destruct H as (-> & -> & -> & ->). reflexivity.
  - intros H. injection H as -> -> -> ->. reflexivity.
Qed.

Lemma isIpInCidr_prefix_32_witness :
  isIpInCidr "10.0.1.5" "010.0.1.05/32" = true
  <-> octet_values "10.0.1.5" = octet_values "010.0.1.05".
Proof.
  apply (isIpInCidr_prefix_32 "10.0.1.5" "010.0.1.05/32" "010.0.1.05" "32");
    reflexivity.
Defined.

(* ================================================================== *)
(** * More on credential selection *)

Lemma find_none_matching (target : string) (config : LabConfig) :
  find (slot_matches target) (slots_by_priority config) = None ->
  matching (siem (instances config)) target = None /\
  matching (victim (instances config)) target = None /\
  matching (kali (instances config)) target = None.
Proof.
  unfold slots_by_priority. cbn [find].
  destruct (slot_matches target (siem (instances config))) eqn:Es; [discriminate|].
  destruct (slot_matches target (victim (instances config))) eqn:Ev; [discriminate|].
  destruct (slot_matches target (kali (instances config))) eqn:Ek; [discriminate|].
  auto using matching_none.
Qed.

(** X9. [selectCredentials] fails exactly when the kali slot is a
    [DisabledInstance] and no slot holds the target; the error is then
    "Kali instance not available for SSH operations". *)
Theorem selectCredentials_fails_iff :
  forall target config defaultUsername e,
    selectCredentials target config defaultUsername = inr e <->
    (e = KaliNotAvailable /\
     (exists d, kali (instances config) = SlotDisabled d) /\
     forall slot, In slot (slots_by_priority config) -> slot_matches target slot = false).
Proof.
  intros target config dflt e.
  destruct (find (slot_matches target) (slots_by_priority config)) as [slot|] eqn:Ef.
  - destruct (first_match_decides target config dflt slot Ef) as (i & -> & ->).
    split; [discriminate|]. intros (_ & _ & Hall).
    apply find_some in Ef. destruct Ef as [Hin Hm].
    rewrite (Hall _ Hin) in Hm. discriminate.
  - destruct (find_none_matching target config Ef) as (Hs & Hv & Hk).
    unfold selectCredentials. rewrite Hs, Hv, Hk.
    destruct (kali (instances config)) as [k|d] eqn:Ek.
    + split; [discriminate|]. intros (_ & (d & Hd) & _). discriminate.
    + split.
      * intros H. injection H as <-. split; [reflexivity|]. split; [eauto|].
        intros slot Hin. apply (find_none _ _ Ef slot Hin).
      * intros (-> & _). reflexivity.
Qed.

(** X10. The credentials returned are never made up: the key is the
    [ssh_key] of one of the three slots, an [Instance]; the user name is
    that instance's own user when the instance holds the target, and
    otherwise the instance is kali, no slot holds the target, and the user
    name is the default one. *)
Theorem selectCredentials_provenance :
  forall target config defaultUsername c,
    selectCredentials target config defaultUsername = inl c ->
    exists i,
      In (SlotInstance i) (slots_by_priority config) /\
      sshKey c = ssh_key i /\
      ((slot_matches target (SlotInstance i) = true /\ username c = ssh_user i)
       \/ (kali (instances config) = SlotInstance i /\
           username c = defaultUsername /\
           forall slot, In slot (slots_by_priority config) ->
                        slot_matches target slot = false)).
Proof.
  intros target config dflt c.
  destruct (find (slot_matches target) (slots_by_priority config)) as [slot|] eqn:Ef.
  - destruct (first_match_decides target config dflt slot Ef) as (i & -> & ->).
    intros H. injection H as <-. apply find_some in Ef. destruct Ef as [Hin Hm].
    exists i. cbn. auto.
  - destruct (find_none_matching target config Ef) as (Hs & Hv & Hk).
    unfold selectCredentials. rewrite Hs, Hv, Hk.
    destruct (kali (instances config)) as [k|d] eqn:Ek; [|discriminate].
    intros H. injection H as <-. exists k. cbn. split; [|split; [reflexivity|]].
    + unfold slots_by_priority. rewrite Ek. simpl. auto.
    + right. split; [reflexivity|]. split; [reflexivity|].
      intros slot Hin. apply (find_none _ _ Ef slot Hin).
Qed.

Lemma selectCredentials_provenance_witness :
  exists i,
    In (SlotInstance i)
       (slots_by_priority
          (sample_lab (sample_slot "1.1.1.1" "siem-admin" true)
                      (SlotDisabled Disabled)
                      (sample_slot "3.3.3.3" "kali-admin" true))) /\
    "~/.ssh/kali-admin" = ssh_key i /\
    ((slot_matches "9.9.9.9" (SlotInstance i) = true /\ "operator" = ssh_user i)
     \/ (sample_slot "3.3.3.3" "kali-admin" true = SlotInstance i /\
         "operator" = "operator" /\
         forall slot,
           In slot
              (slots_by_priority
                 (sample_lab (sample_slot "1.1.1.1" "siem-admin" true)
                             (SlotDisabled Disabled)
                             (sample_slot "3.3.3.3" "kali-admin" true))) ->
           slot_matches "9.9.9.9" slot = false)).
Proof.
  apply (selectCredentials_provenance "9.9.9.9"
           (sample_lab (sample_slot "1.1.1.1" "siem-admin" true)
                       (SlotDisabled Disabled)
                       (sample_slot "3.3.3.3" "kali-admin" true))
           "operator"
           {| sshKey := "~/.ssh/kali-admin"; username := "operator" |}).
  reflexivity.
Defined.

(** X11. When some slot holds the target, the default user name plays
    no part in the result. *)
Theorem selectCredentials_default_only_in_fallback :
  forall target config slot,
    In slot (slots_by_priority config) -> slot_matches target slot = true ->
    forall d d', selectCredentials target config d = selectCredentials target config d'.
Proof.
  intros target config slot Hin Hm d d'.
  destruct (find (slot_matches target) (slots_by_priority config)) as [s|] eqn:Ef.
  - destruct (first_match_decides target config d s Ef) as (i & Hi & ->).
    destruct (first_match_decides target config d' s Ef) as (j & Hj & ->).
    rewrite Hi in Hj. injection Hj as <-. reflexivity.
  - rewrite (find_none _ _ Ef slot Hin) in Hm. discriminate.
Qed.

Lemma selectCredentials_default_only_in_fallback_witness :
  selectCredentials "3.3.3.3"
    (sample_lab (SlotDisabled Disabled) (SlotDisabled Disabled)
                (sample_slot "3.3.3.3" "kali-admin" true)) "kali"
  = selectCredentials "3.3.3.3"
      (sample_lab (SlotDisabled Disabled) (SlotDisabled Disabled)
                  (sample_slot "3.3.3.3" "kali-admin" true)) "operator".
Proof.
  apply (selectCredentials_default_only_in_fallback "3.3.3.3"
           (sample_lab (SlotDisabled Disabled) (SlotDisabled Disabled)
                       (sample_slot "3.3.3.3" "kali-admin" true))
           (sample_slot "3.3.3.3" "kali-admin" true)).
  - simpl. auto.
  - reflexivity.
Defined.

(* ================================================================== *)
(** * Loading and the expansion of key paths *)

Section LoadingFacts.

Variable expandTilde : string -> string.

(** X12. Selecting on a configuration whose keys were expanded gives
    what selecting on the configuration itself gives, with the key
    expanded when it starts with a tilde: the expansion changes no match,
    no user name and no failure. *)
Theorem selectCredentials_after_expansion :
  forall target config defaultUsername,
    selectCredentials target (expandSshKeys expandTilde config) defaultUsername
    = match selectCredentials target config defaultUsername with
      | inl c =>
          inl {| sshKey := if startsWithTilde (sshKey c)
                           then expandTilde (sshKey c) else sshKey c;
                 username := username c |}
      | inr e => inr e
      end.
Proof.
  intros target [ver gen lb [s v k] net m] dflt.
  unfold selectCredentials, expandSshKeys, expandSlot, matching.
  cbn [instances siem victim kali].
  destruct s as [s|ds], v as [v|dv], k as [k|dk];
    repeat match goal with
           | |- context [startsWithTilde ?x] =>
               let E := fresh "E" in destruct (startsWithTilde x) eqn:E
           end;
    cbn [public_ip private_ip ssh_key ssh_user];
    repeat match goal with
           | |- context [String.eqb ?a ?b || String.eqb ?c ?d] =>
               destruct (String.eqb a b || String.eqb c d)
           end;
    cbn;
    repeat match goal with
           | E : startsWithTilde _ = _ |- _ => rewrite E
           end;
    reflexivity.
Qed.

Lemma expandSlot_fixed (slot : InstanceSlot) :
  (forall i, slot = SlotInstance i -> startsWithTilde (ssh_key i) = false) ->
  expandSlot expandTilde slot = slot.
Proof.
  destruct slot as [i|d]; [|reflexivity].
  intros H. unfold expandSlot. rewrite (H i eq_refl). reflexivity.
Qed.

Lemma expandSlot_no_tilde (slot : InstanceSlot) (i : Instance) :
  (forall s, startsWithTilde (expandTilde s) = false) ->
  expandSlot expandTilde slot = SlotInstance i ->
  startsWithTilde (ssh_key i) = false.
Proof.
  intros Hx. destruct slot as [j|d]; [|discriminate].
  unfold expandSlot. destruct (startsWithTilde (ssh_key j)) eqn:E; intros H;
    injection H as <-; [apply Hx | exact E].
Qed.

Lemma expandSshKeys_fixed (config : LabConfig) :
  (forall slot i, In slot (slots_by_priority config) -> slot = SlotInstance i ->
                  startsWithTilde (ssh_key i) = false) ->
  expandSshKeys expandTilde config = config.
Proof.
  destruct config as [ver gen lb [s v k] net m]. intros H. unfold expandSshKeys.
  cbn [instances siem victim kali version generated lab network mcp].
  unfold slots_by_priority in H. cbn [instances siem victim kali] in H.
  rewrite !expandSlot_fixed; [reflexivity | | |]; intros i Hi; eapply H; eauto;
    simpl; auto.
Qed.

Lemma expandSshKeys_no_tilde (config : LabConfig) :
  (forall s, startsWithTilde (expandTilde s) = false) ->
  forall slot i,
    In slot (slots_by_priority (expandSshKeys expandTilde config)) ->
    slot = SlotInstance i -> startsWithTilde (ssh_key i) = false.
Proof.
  intros Hx slot i Hin ->. unfold slots_by_priority, expandSshKeys in Hin.
  cbn [instances siem victim kali] in Hin.
  destruct Hin as [H | [H | [H | []]]]; eapply expandSlot_no_tilde; eauto.
Qed.

(** X13. A configuration none of whose keys starts with a tilde is
    left as it is by the expansion. When [expandTilde] never returns a
    path that starts with a tilde, no key of an expanded configuration
    starts with one, and expanding twice is expanding once. *)
Theorem expandSshKeys_settles :
  (forall config,
      (forall slot i, In slot (slots_by_priority config) -> slot = SlotInstance i ->
                      startsWithTilde (ssh_key i) = false) ->
      expandSshKeys expandTilde config = config)
  /\ ((forall s, startsWithTilde (expandTilde s) = false) ->
      forall config,
        (forall slot i,
            In slot (slots_by_priority (expandSshKeys expandTilde config)) ->
            slot = SlotInstance i -> startsWithTilde (ssh_key i) = false)
        /\ expandSshKeys expandTilde (expandSshKeys expandTilde config)
           = expandSshKeys expandTilde config).
Proof.
  split; [exact expandSshKeys_fixed|].
  intros Hx config. split.
  - apply expandSshKeys_no_tilde. exact Hx.
  - apply expandSshKeys_fixed, expandSshKeys_no_tilde. exact Hx.
Qed.

End LoadingFacts.

Lemma sample_expandTilde_absolute (s : string) :
  startsWithTilde (sample_expandTilde s) = false.
Proof.
  destruct s as [|c r]; [reflexivity|].
  destruct c as [[] [] [] [] [] [] [] []]; reflexivity.
Qed.

Lemma expandSshKeys_settles_witness :
  expandSshKeys sample_expandTilde
    (expandSshKeys sample_expandTilde
       (sample_lab (sample_slot "1.1.1.1" "siem-admin" true) (SlotDisabled Disabled)
                   (sample_slot "3.3.3.3" "kali-admin" true)))
  = expandSshKeys sample_expandTilde
      (sample_lab (sample_slot "1.1.1.1" "siem-admin" true) (SlotDisabled Disabled)
                  (sample_slot "3.3.3.3" "kali-admin" true)).
Proof.
  apply (proj2 (expandSshKeys_settles sample_expandTilde) sample_expandTilde_absolute
           (sample_lab (sample_slot "1.1.1.1" "siem-admin" true) (SlotDisabled Disabled)
                       (sample_slot "3.3.3.3" "kali-admin" true))).
Defined.

Section LoadFacts.

Variable expandTilde : string -> string.
Variable existsSync : fspath -> bool.
Variable cwd : fspath.
Variable execSync : fspath -> string + string.
Variable JSON_parse : string -> json + string.
Variable ToStringValue : json -> string.
Variable isValidIP : string -> bool.

(** X14. A configuration that [loadLabConfig] returns has, in every
    [Instance] slot, two addresses that pass the address check of the
    schema; and no key that starts with a tilde, when [expandTilde] never
    returns such a path. *)
Theorem loadLabConfig_result :
  forall config,
    loadLabConfig expandTilde existsSync cwd execSync JSON_parse ToStringValue isValidIP
    = inl config ->
    (forall slot i,
        In slot (slots_by_priority config) -> slot = SlotInstance i ->
        isValidIP (public_ip i) = true /\ isValidIP (private_ip i) = true)
    /\ ((forall s, startsWithTilde (expandTilde s) = false) ->
        forall slot i,
          In slot (slots_by_priority config) -> slot = SlotInstance i ->
          startsWithTilde (ssh_key i) = false).
Proof.
  intros config. unfold loadLabConfig.
  destruct (findTerraformRoot existsSync cwd) as [root|e]; [|discriminate].
  destruct (execSync root) as [out|m]; [|discriminate].
  destruct (JSON_parse (trim out)) as [data|m]; [|discriminate].
  destruct (JSON_parse (textOf ToStringValue data)) as [payload|m]; [|discriminate].
  unfold LabConfigSchema_parse, Zod.parse.
  destruct (Zod.status (LabConfigSchema isValidIP [] (Some payload))) as [c|c|] eqn:Es;
    try discriminate.
  intros H. injection H as <-. split.
  - intros slot i Hin ->.
    assert (Hex : exists s0, In s0 (slots_by_priority c) /\
                             expandSlot expandTilde s0 = SlotInstance i).
    { unfold slots_by_priority, expandSshKeys in *.
      cbn [instances siem victim kali] in Hin.
      destruct Hin as [H | [H | [H | []]]]; eexists; (split; [|exact H]); simpl; auto. }
    destruct Hex as (s0 & Hin0 & He).
    destruct (config_slots_accepted isValidIP _ _ _ Es _ Hin0) as (q & w & Hs).
    destruct s0 as [j|d]; [|discriminate].
    destruct (slot_inversion isValidIP q w _ Hs) as [(j' & Hj & Hi) | (d & Hd & _)];
      [|discriminate].
    injection Hj as <-.
    destruct (instance_valid_addresses isValidIP _ _ _ Hi) as [Hp Hq].
    unfold expandSlot in He. destruct (startsWithTilde (ssh_key j));
      injection He as <-; auto.
  - intros Hx. apply expandSshKeys_no_tilde. exact Hx.
Qed.

End LoadFacts.

Lemma loadLabConfig_result_witness :
  (forall slot i,
      In slot (slots_by_priority
                 (expandSshKeys sample_expandTilde
                    (sample_lab (sample_slot "1.1.1.1" "siem" true) (SlotDisabled Disabled)
                                (sample_slot "3.3.3.3" "kali" true)))) ->
      slot = SlotInstance i ->
      sample_isValidIP (public_ip i) = true /\ sample_isValidIP (private_ip i) = true)
  /\ ((forall s, startsWithTilde (sample_expandTilde s) = false) ->
      forall slot i,
        In slot (slots_by_priority
                   (expandSshKeys sample_expandTilde
                      (sample_lab (sample_slot "1.1.1.1" "siem" true) (SlotDisabled Disabled)
                                  (sample_slot "3.3.3.3" "kali" true)))) ->
        slot = SlotInstance i ->
        startsWithTilde (ssh_key i) = false).
Proof.
  apply (loadLabConfig_result sample_expandTilde infra_fs ["home"; "atomik"]
           sample_execSync sample_JSON_parse sample_ToStringValue sample_isValidIP).
  vm_compute. reflexivity.
Defined.

(* ================================================================== *)
(** * More on root discovery *)

Section DiscoveryFacts.

Variable existsSync : fspath -> bool.

Lemma fspath_eqb_eq (a b : fspath) : fspath_eqb a b = true <-> a = b.
Proof.
  unfold fspath_eqb. destruct (list_eq_dec string_dec a b); split; congruence.
Qed.

Lemma checkKnown_sound (locations : list fspath) (root : fspath) :
  checkKnown existsSync locations = Some root ->
  In root locations /\ existsSync root = true /\ has_marker existsSync root = true.
Proof.
  induction locations as [|l rest IH]; cbn [checkKnown]; [discriminate|].
  destruct (existsSync l) eqn:El.
  - fold (has_marker existsSync l). destruct (has_marker existsSync l) eqn:Ml.
    + intros H. injection H as <-. simpl. auto.
    + intros H. destruct (IH H) as (? & ? & ?). simpl. auto.
  - intros H. destruct (IH H) as (? & ? & ?). simpl. auto.
Qed.

Lemma root_at_marker (dir : fspath) :
  walk_stops existsSync dir = true ->
  has_marker existsSync (root_at existsSync dir) = true.
Proof.
  unfold walk_stops, root_at. destruct (has_marker existsSync dir) eqn:E; [auto|].
  cbn [orb]. unfold has_infra_marker, has_marker, resolve.
  rewrite <- !app_assoc. auto.
Qed.

Lemma ancestor_fixed (dir : fspath) (k : nat) :
  dirname dir = dir -> ancestor k dir = dir.
Proof.
  intros H. induction k as [|k IH]; [reflexivity|].
  change (ancestor (S k) dir) with (dirname (ancestor k dir)).
  rewrite IH. exact H.
Qed.

Lemma ancestor_succ (dir : fspath) (k : nat) :
  ancestor (S k) dir = ancestor k (dirname dir).
Proof. unfold ancestor. apply Nat.iter_succ_r. Qed.

(** The upward walk returns the root of the nearest level, among the
    first [fuel], at which it stops. *)
Lemma walkUp_nearest (fuel : nat) :
  forall (dir root : fspath),
    walkUp existsSync fuel dir = Some root <->
    exists k, (k < fuel)%nat /\
              (forall j, (j < k)%nat -> walk_stops existsSync (ancestor j dir) = false) /\
              walk_stops existsSync (ancestor k dir) = true /\
              root = root_at existsSync (ancestor k dir).
Proof.
  induction fuel as [|fuel IH]; intros dir root; cbn [walkUp].
  - split; [discriminate | intros (k & Hk & _); lia].
  - cbv zeta. fold (has_marker existsSync dir). fold (has_infra_marker existsSync dir).
    destruct (has_marker existsSync dir) eqn:Em.
    { split.
      - intros H. injection H as <-. exists 0%nat. split; [lia|].
        split; [intros j Hj; lia|]. cbn. unfold walk_stops, root_at. rewrite Em. auto.
      - intros (k & Hk & Hbefore & Hstop & ->). destruct k as [|k].
        + cbn. unfold root_at. rewrite Em. reflexivity.
        + specialize (Hbefore 0%nat ltac:(lia)). cbn in Hbefore.
          unfold walk_stops in Hbefore. rewrite Em in Hbefore. discriminate. }
    destruct (has_infra_marker existsSync dir) eqn:Ei.
    { split.
      - intros H. injection H as <-. exists 0%nat. split; [lia|].
        split; [intros j Hj; lia|]. cbn. unfold walk_stops, root_at. rewrite Em, Ei. auto.
      - intros (k & Hk & Hbefore & Hstop & ->). destruct k as [|k].
        + cbn. unfold root_at. rewrite Em. reflexivity.
        + specialize (Hbefore 0%nat ltac:(lia)). cbn in Hbefore.
          unfold walk_stops in Hbefore. rewrite Em, Ei in Hbefore. discriminate. }
    cbn [orb].
    assert (H0 : walk_stops existsSync dir = false)
      by (unfold walk_stops; rewrite Em, Ei; reflexivity).
    destruct (fspath_eqb (dirname dir) dir) eqn:Ed.
    { apply fspath_eqb_eq in Ed. split; [discriminate|].
      intros (k & _ & _ & Hstop & _). rewrite (ancestor_fixed dir k Ed) in Hstop.
      congruence. }
    rewrite IH. split.
    + intros (k & Hk & Hbefore & Hstop & ->). exists (S k). split; [lia|].
      split; [| rewrite ancestor_succ; auto].
      intros [|j] Hj; [exact H0|]. rewrite ancestor_succ. apply Hbefore. lia.
    + intros (k & Hk & Hbefore & Hstop & ->). destruct k as [|k].
      { cbn in Hstop. congruence. }
      exists k. split; [lia|]. rewrite <- !ancestor_succ. split; [|auto].
      intros j Hj. rewrite <- ancestor_succ. apply Hbefore. lia.
Qed.

(** X15. The directory [findTerraformRoot] returns always holds
    [main.tf] or [outputs.tf] at its top level; it is a known location
    that exists, or the working directory or one of its nine nearest
    ancestors, or the [infrastructure] subdirectory of one of these. *)
Theorem findTerraformRoot_has_marker :
  forall cwd root,
    findTerraformRoot existsSync cwd = inl root ->
    has_marker existsSync root = true
    /\ ((In root knownLocations /\ existsSync root = true)
        \/ exists k, (k < maxDepth)%nat /\
                     (root = ancestor k cwd \/
                      root = resolve (ancestor k cwd) ["infrastructure"])).
Proof.
  intros cwd root. unfold findTerraformRoot.
  destruct (checkKnown existsSync knownLocations) as [l|] eqn:Ek.
  - intros H. injection H as <-.
    destruct (checkKnown_sound _ _ Ek) as (? & ? & ?). auto.
  - destruct (walkUp existsSync maxDepth cwd) as [r|] eqn:Ew; [|discriminate].
    intros H. injection H as <-.
    apply walkUp_nearest in Ew. destruct Ew as (k & Hk & _ & Hstop & ->).
    split; [apply root_at_marker; exact Hstop|].
    right. exists k. split; [exact Hk|].
    unfold root_at. destruct (has_marker existsSync (ancestor k cwd)); auto.
Qed.

(** X16. When no known location qualifies, the walk returns the
    nearest level, among the working directory and its nine nearest
    ancestors, that holds a marker at its top level or in its
    [infrastructure] subdirectory: the directory itself in the first case,
    else its [infrastructure] subdirectory. *)
Theorem findTerraformRoot_nearest :
  forall cwd k,
    checkKnown existsSync knownLocations = None ->
    (k < maxDepth)%nat ->
    (forall j, (j < k)%nat -> walk_stops existsSync (ancestor j cwd) = false) ->
    walk_stops existsSync (ancestor k cwd) = true ->
    findTerraformRoot existsSync cwd
    = inl (if has_marker existsSync (ancestor k cwd) then ancestor k cwd
           else resolve (ancestor k cwd) ["infrastructure"]).
Proof.
  intros cwd k Hknown Hk Hbefore Hstop. unfold findTerraformRoot. rewrite Hknown.
  assert (Hw : walkUp existsSync maxDepth cwd = Some (root_at existsSync (ancestor k cwd))).
  { apply walkUp_nearest. exists k. auto. }
  rewrite Hw. reflexivity.
Qed.

(** A level at which the walk stops has a nearest one below or at it. *)
Lemma first_stop (cwd : fspath) (k : nat) :
  walk_stops existsSync (ancestor k cwd) = true ->
  exists k', (k' <= k)%nat /\
             (forall j, (j < k')%nat -> walk_stops existsSync (ancestor j cwd) = false) /\
             walk_stops existsSync (ancestor k' cwd) = true.
Proof.
  induction k as [k IH] using lt_wf_ind. intros Hs.
  destruct (existsb (fun j => walk_stops existsSync (ancestor j cwd)) (seq 0 k)) eqn:Ee.
  - apply existsb_exists in Ee. destruct Ee as (j & Hj & Hsj).
    apply in_seq in Hj. destruct (IH j ltac:(lia) Hsj) as (k' & Hk' & Hb & Hs').
    exists k'. split; [lia | auto].
  - exists k. split; [lia|]. split; [|exact Hs].
    intros j Hj. destruct (walk_stops existsSync (ancestor j cwd)) eqn:Ej; [|reflexivity].
    assert (Hex : existsb (fun j => walk_stops existsSync (ancestor j cwd)) (seq 0 k)
                  = true).
    { apply existsb_exists. exists j. split; [apply in_seq; lia | exact Ej]. }
    congruence.
Qed.

(** X17. [findTerraformRoot] fails exactly when no known location
    qualifies and none of the ten levels from the working directory upward
    holds a marker, at its top level or in its [infrastructure]
    subdirectory; the error names the working directory. Stopping at the
    root directory changes nothing to this. *)
Theorem findTerraformRoot_fails_iff :
  forall cwd e,
    findTerraformRoot existsSync cwd = inr e <->
    (e = TerraformRootNotFound cwd /\
     checkKnown existsSync knownLocations = None /\
     forall k, (k < maxDepth)%nat -> walk_stops existsSync (ancestor k cwd) = false).
Proof.
  intros cwd e. unfold findTerraformRoot.
  destruct (checkKnown existsSync knownLocations) as [l|] eqn:Ek.
  { split; [discriminate | intros (_ & H & _); discriminate]. }
  destruct (walkUp existsSync maxDepth cwd) as [r|] eqn:Ew.
  - split; [discriminate|]. intros (_ & _ & Hall).
    apply walkUp_nearest in Ew. destruct Ew as (k & Hk & _ & Hstop & _).
    rewrite (Hall k Hk) in Hstop. discriminate.
  - split; [| intros (-> & _); reflexivity].
    intros H. injection H as <-. split; [reflexivity|]. split; [reflexivity|].
    intros k Hk. destruct (walk_stops existsSync (ancestor k cwd)) eqn:Es; [|reflexivity].
    destruct (first_stop cwd k Es) as (k' & Hk' & Hb & Hs').
    assert (Hw : walkUp existsSync maxDepth cwd
                 = Some (root_at existsSync (ancestor k' cwd))).
    { apply walkUp_nearest. exists k'. split; [lia | auto]. }
    congruence.
Qed.

End DiscoveryFacts.

Lemma findTerraformRoot_nearest_witness :
  findTerraformRoot nested_infra_fs
    ["home"; "atomik"; "src"; "aptl"; "infrastructure"; "infrastructure"; "modules"]
  = inl (if has_marker nested_infra_fs
              (ancestor 1 ["home"; "atomik"; "src"; "aptl"; "infrastructure";
                           "infrastructure"; "modules"])
         then ancestor 1 ["home"; "atomik"; "src"; "aptl"; "infrastructure";
                          "infrastructure"; "modules"]
         else resolve
                (ancestor 1 ["home"; "atomik"; "src"; "aptl"; "infrastructure";
                             "infrastructure"; "modules"]) ["infrastructure"]).
Proof.
  apply (findTerraformRoot_nearest nested_infra_fs
           ["home"; "atomik"; "src"; "aptl"; "infrastructure"; "infrastructure"; "modules"]
           1%nat).
  - reflexivity.
  - unfold maxDepth. lia.
  - intros j Hj. assert (j = 0%nat) as -> by lia. reflexivity.
  - reflexivity.
Defined.

Lemma findTerraformRoot_has_marker_witness :
  has_marker infra_fs ["home"; "atomik"; "src"; "aptl"; "infrastructure"] = true
  /\ ((In ["home"; "atomik"; "src"; "aptl"; "infrastructure"] knownLocations /\
       infra_fs ["home"; "atomik"; "src"; "aptl"; "infrastructure"] = true)
      \/ exists k, (k < maxDepth)%nat /\
                   (["home"; "atomik"; "src"; "aptl"; "infrastructure"]
                    = ancestor k ["tmp"] \/
                    ["home"; "atomik"; "src"; "aptl"; "infrastructure"]
                    = resolve (ancestor k ["tmp"]) ["infrastructure"])).
Proof.
  apply (findTerraformRoot_has_marker infra_fs ["tmp"]
           ["home"; "atomik"; "src"; "aptl"; "infrastructure"]).
  reflexivity.
Defined.

(** The walk is bounded: a marker at the root directory is not found
    from a working directory ten levels down. *)
Example findTerraformRoot_depth_bound :
  has_marker root_marker_fs (ancestor 10 deep_cwd) = true
  /\ findTerraformRoot root_marker_fs deep_cwd = inr (TerraformRootNotFound deep_cwd).
Proof. split; reflexivity. Qed.

(* ================================================================== *)
(** * What a validated configuration holds *)

Lemma string_OK (p : Zod.path) (v : option json) (s : string) :
  Zod.status (Zod.string_ p v) = Zod.OK s -> v = Some (JString s).
Proof. destruct v as [[]|]; cbn; intros H; try discriminate. congruence. Qed.

Lemma number_OK (p : Zod.path) (v : option json) q :
  Zod.status (Zod.number_ p v) = Zod.OK q -> v = Some (JNumber q).
Proof. destruct v as [[]|]; cbn; intros H; try discriminate. congruence. Qed.

Lemma boolean_OK (p : Zod.path) (v : option json) (b : bool) :
  Zod.status (Zod.boolean_ p v) = Zod.OK b -> v = Some (JBool b).
Proof. destruct v as [[]|]; cbn; intros H; try discriminate. congruence. Qed.

Lemma string_ip_OK (chk : string -> bool) (p : Zod.path) (v : option json) (s : string) :
  Zod.status (Zod.string_ip chk p v) = Zod.OK s -> v = Some (JString s).
Proof.
  destruct v as [[]|]; cbn; intros H; try discriminate.
  destruct (chk s0); cbn in H; [congruence | discriminate].
Qed.

Lemma optional_string_OK (p : Zod.path) (v : option json) (o : option string) :
  Zod.status (Zod.optional Zod.string_ p v) = Zod.OK o -> v = option_map JString o.
Proof.
  destruct v as [[]|]; cbn; intros H; try discriminate; injection H as <-; reflexivity.
Qed.

Lemma enabled_OK (p : Zod.path) (v : option json) (b : bool) :
  Zod.status (Zod.default true (Zod.optional Zod.boolean_) p v) = Zod.OK b ->
  (v = None /\ b = true) \/ v = Some (JBool b).
Proof.
  destruct v as [[]|]; cbn; intros H; try discriminate; injection H as <-; auto.
Qed.

Lemma rmap_OK {A B} (f : A -> B) (r : Zod.result A) (b : B) :
  Zod.status (Zod.rmap f r) = Zod.OK b -> exists a, Zod.status r = Zod.OK a /\ b = f a.
Proof.
  destruct r as [ri [a | a |]]; cbn; intros H; try discriminate.
  injection H as <-. eauto.
Qed.

Lemma elements_OK (p : Zod.path) (items : list json) :
  forall start l,
    Zod.status (Zod.elements Zod.string_ p start items) = Zod.OK l ->
    items = map JString l.
Proof.
  induction items as [|x rest IH]; intros start l; cbn [Zod.elements].
  - cbn. intros H. injection H as <-. reflexivity.
  - intros H. apply ap_OK_inv in H. destruct H as (g & t & Hg & Ht & ->).
    apply rmap_OK in Hg. destruct Hg as (s & Hs & ->).
    apply string_OK in Hs. injection Hs as ->.
    rewrite (IH _ _ Ht). reflexivity.
Qed.

Lemma targets_OK (p : Zod.path) (v : option json) (l : list string) :
  Zod.status (Zod.array Zod.string_ p v) = Zod.OK l -> v = Some (JArray (map JString l)).
Proof.
  destruct v as [[]|]; cbn [Zod.array]; try discriminate.
  intros H. apply elements_OK in H. congruence.
Qed.

Section Decoding.

Variable isValidIP : string -> bool.

(** The fields of an accepted instance are the properties of the object. *)
Lemma instance_decode (p : Zod.path) (v : option json) (i : Instance) :
  Zod.status (InstanceSchema isValidIP p v) = Zod.OK i ->
  exists o,
    v = Some (JObject o) /\
    get o "public_ip" = Some (JString (public_ip i)) /\
    get o "private_ip" = Some (JString (private_ip i)) /\
    get o "ssh_key" = Some (JString (ssh_key i)) /\
    get o "ssh_user" = Some (JString (ssh_user i)) /\
    get o "instance_type" = Some (JString (instance_type i)) /\
    ((get o "enabled" = None /\ enabled i = true)
     \/ get o "enabled" = Some (JBool (enabled i))).
Proof.
  destruct v as [[| | | | |o]|]; try discriminate.
  unfold InstanceSchema, Zod.object, Zod.field. intros H. ap_inversion H.
  exists o. cbn [public_ip private_ip ssh_key ssh_user instance_type enabled].
  repeat match goal with
         | H : Zod.status (Zod.string_ip _ _ _) = _ |- _ => apply string_ip_OK in H
         | H : Zod.status (Zod.string_ _ _) = _ |- _ => apply string_OK in H
         | H : Zod.status (Zod.default _ _ _ _) = _ |- _ => apply enabled_OK in H
         end.
  tauto.
Qed.

Lemma disabled_decode (p : Zod.path) (v : option json) (d : DisabledInstance) :
  Zod.status (DisabledInstanceSchema p v) = Zod.OK d ->
  exists o, v = Some (JObject o) /\ get o "enabled" = Some (JBool false).
Proof.
  intros H. destruct v as [w|]; [|discriminate H].
  destruct w as [| | | | |o]; try discriminate H.
  exists o. split; [reflexivity|].
  destruct (get o "enabled") as [[| [] | | | |]|] eqn:E; try reflexivity;
    rewrite (disabled_invalid p o) in H by congruence; discriminate H.
Qed.

(** The slots of an accepted configuration, each with the value it was
    parsed from. *)
Lemma config_slot_sources (raw : json) (config : LabConfig) :
  Zod.status (LabConfigSchema isValidIP [] (Some raw)) = Zod.OK config ->
  exists fs ifs,
    raw = JObject fs /\ get fs "instances" = Some (JObject ifs) /\
    forall name slot,
      In (name, slot) [("siem", siem (instances config));
                       ("victim", victim (instances config));
                       ("kali", kali (instances config))] ->
      Zod.status (InstanceSlotSchema isValidIP (keys ["instances"; name]) (get ifs name))
      = Zod.OK slot.
Proof.
  destruct raw as [| | | | |fs]; try discriminate.
  unfold LabConfigSchema, Zod.object, Zod.field. intros H. ap_inversion H.
  match goal with
  | Hi : Zod.status (InstancesSchema _ _ ?w) = _ |- _ =>
      destruct w as [[| | | | |ifs]|] eqn:Ei; try discriminate Hi;
      unfold InstancesSchema, Zod.object, Zod.field in Hi; ap_inversion Hi
  end.
  exists fs, ifs. split; [reflexivity|]. split; [exact Ei|].
  cbn [instances siem victim kali].
  intros name slot [Hn | [Hn | [Hn | []]]]; injection Hn as <- <-; assumption.
Qed.

(** X19. In an accepted configuration, a slot that is an [Instance]
    holds the five strings of the payload's slot, and its [enabled] is the
    payload's boolean, or [true] when the payload gives none; a slot that
    is a [DisabledInstance] comes from a payload slot whose [enabled] is
    the literal [false]. *)
Theorem validated_slots_reflect_payload :
  forall raw config,
    LabConfigSchema_parse isValidIP raw = inl config ->
    forall name slot,
      In (name, slot) [("siem", siem (instances config));
                       ("victim", victim (instances config));
                       ("kali", kali (instances config))] ->
      match slot with
      | SlotInstance i =>
          at_path raw ["instances"; name; "public_ip"] = Some (JString (public_ip i)) /\
          at_path raw ["instances"; name; "private_ip"] = Some (JString (private_ip i)) /\
          at_path raw ["instances"; name; "ssh_key"] = Some (JString (ssh_key i)) /\
          at_path raw ["instances"; name; "ssh_user"] = Some (JString (ssh_user i)) /\
          at_path raw ["instances"; name; "instance_type"]
          = Some (JString (instance_type i)) /\
          ((at_path raw ["instances"; name; "enabled"] = None /\ enabled i = true)
           \/ at_path raw ["instances"; name; "enabled"] = Some (JBool (enabled i)))
      | SlotDisabled _ =>
          at_path raw ["instances"; name; "enabled"] = Some (JBool false)
      end.
Proof.
  intros raw config H name slot Hin.
  unfold LabConfigSchema_parse, Zod.parse in H.
  destruct (Zod.status (LabConfigSchema isValidIP [] (Some raw))) as [c | c |] eqn:Es;
    try discriminate.
  injection H as ->.
  destruct (config_slot_sources raw config Es) as (fs & ifs & -> & Ei & Hall).
  specialize (Hall name slot Hin).
  destruct (slot_inversion isValidIP _ _ _ Hall) as [(i & -> & Hi) | (d & -> & _ & Hd)].
  - destruct (instance_decode _ _ _ Hi) as (o & Eo & H1 & H2 & H3 & H4 & H5 & H6).
    cbn [at_path]. rewrite Ei, Eo, H1, H2, H3, H4, H5.
    repeat (split; [reflexivity|]).
    destruct H6 as [[-> ->] | ->]; auto.
  - destruct (disabled_decode _ _ _ Hd) as (o & Eo & He).
    cbn [at_path]. rewrite Ei, Eo, He. reflexivity.
Qed.

(** X18. Validation copies and converts nothing: in an accepted
    configuration, the version, the time stamp and the fields of the lab,
    network and MCP blocks are the values the payload holds at these
    paths, the optional ones absent when the payload has none. *)
Theorem validated_fields_reflect_payload :
  forall raw config,
    LabConfigSchema_parse isValidIP raw = inl config ->
    at_path raw ["version"] = Some (JString (version config))
    /\ at_path raw ["generated"] = Some (JString (generated config))
    /\ at_path raw ["lab"; "name"] = Some (JString (lab_name (lab config)))
    /\ at_path raw ["lab"; "vpc_cidr"] = Some (JString (lab_vpc_cidr (lab config)))
    /\ at_path raw ["lab"; "project"] = option_map JString (lab_project (lab config))
    /\ at_path raw ["lab"; "environment"]
       = option_map JString (lab_environment (lab config))
    /\ at_path raw ["network"; "vpc_cidr"]
       = Some (JString (net_vpc_cidr (network config)))
    /\ at_path raw ["network"; "subnet_cidr"]
       = Some (JString (net_subnet_cidr (network config)))
    /\ at_path raw ["network"; "allowed_ip"]
       = Some (JString (net_allowed_ip (network config)))
    /\ at_path raw ["mcp"; "server_name"] = Some (JString (server_name (mcp config)))
    /\ at_path raw ["mcp"; "allowed_targets"]
       = Some (JArray (map JString (allowed_targets (mcp config))))
    /\ at_path raw ["mcp"; "max_session_time"]
       = Some (JNumber (max_session_time (mcp config)))
    /\ at_path raw ["mcp"; "audit_enabled"] = Some (JBool (audit_enabled (mcp config)))
    /\ at_path raw ["mcp"; "log_level"] = Some (JString (log_level (mcp config))).
Proof.
  intros raw config H.
  unfold LabConfigSchema_parse, Zod.parse in H.
  destruct (Zod.status (LabConfigSchema isValidIP [] (Some raw))) as [c | c |] eqn:Es;
    try discriminate.
  injection H as ->.
  destruct raw as [| | | | |fs]; try discriminate.
  unfold LabConfigSchema, Zod.object, Zod.field in Es. ap_inversion Es.
  repeat match goal with
         | Hb : Zod.status (LabSchema _ ?w) = _ |- _ =>
             destruct w as [[| | | | |lfs]|] eqn:El; try discriminate Hb;
             unfold LabSchema, Zod.object, Zod.field in Hb; ap_inversion Hb
         | Hb : Zod.status (NetworkSchema _ ?w) = _ |- _ =>
             destruct w as [[| | | | |nfs]|] eqn:En; try discriminate Hb;
             unfold NetworkSchema, Zod.object, Zod.field in Hb; ap_inversion Hb
         | Hb : Zod.status (MCPConfigSchema _ ?w) = _ |- _ =>
             destruct w as [[| | | | |mfs]|] eqn:Em; try discriminate Hb;
             unfold MCPConfigSchema, Zod.object, Zod.field in Hb; ap_inversion Hb
         end.
  repeat match goal with
         | H : Zod.status (Zod.string_ _ _) = _ |- _ => apply string_OK in H
         | H : Zod.status (Zod.number_ _ _) = _ |- _ => apply number_OK in H
         | H : Zod.status (Zod.boolean_ _ _) = _ |- _ => apply boolean_OK in H
         | H : Zod.status (Zod.optional Zod.string_ _ _) = _ |- _ =>
             apply optional_string_OK in H
         | H : Zod.status (Zod.array Zod.string_ _ _) = _ |- _ => apply targets_OK in H
         end.
  cbn [at_path version generated lab network mcp lab_name lab_vpc_cidr lab_project
       lab_environment net_vpc_cidr net_subnet_cidr net_allowed_ip server_name
       allowed_targets max_session_time audit_enabled log_level].
  rewrite El, En, Em.
  repeat match goal with
         | H : get _ _ = _ |- _ => rewrite H; clear H
         end.
  repeat split; try reflexivity;
    match goal with
    | |- context [option_map JString ?o] => destruct o; reflexivity
    end.
Qed.

End Decoding.

Lemma validated_fields_reflect_payload_witness :
  at_path sample_payload ["version"] = Some (JString "1.0")
  /\ at_path sample_payload ["generated"] = Some (JString "2025-01-01T00:00:00Z")
  /\ at_path sample_payload ["lab"; "name"] = Some (JString "aptl")
  /\ at_path sample_payload ["lab"; "vpc_cidr"] = Some (JString "10.0.0.0/16")
  /\ at_path sample_payload ["lab"; "project"] = option_map JString None
  /\ at_path sample_payload ["lab"; "environment"] = option_map JString None
  /\ at_path sample_payload ["network"; "vpc_cidr"] = Some (JString "10.0.0.0/16")
  /\ at_path sample_payload ["network"; "subnet_cidr"] = Some (JString "10.0.1.0/24")
  /\ at_path sample_payload ["network"; "allowed_ip"] = Some (JString "203.0.113.7/32")
  /\ at_path sample_payload ["mcp"; "server_name"] = Some (JString "kali-red-team")
  /\ at_path sample_payload ["mcp"; "allowed_targets"]
     = Some (JArray (map JString ["10.0.1.0/24"]))
  /\ at_path sample_payload ["mcp"; "max_session_time"]
     = Some (JNumber (QArith_base.Qmake 3600 1))
  /\ at_path sample_payload ["mcp"; "audit_enabled"] = Some (JBool true)
  /\ at_path sample_payload ["mcp"; "log_level"] = Some (JString "info").
Proof.
  apply (validated_fields_reflect_payload sample_isValidIP sample_payload
           (sample_lab (sample_slot "1.1.1.1" "siem" true) (SlotDisabled Disabled)
                       (sample_slot "3.3.3.3" "kali" true))).
  vm_compute. reflexivity.
Defined.

Lemma validated_slots_reflect_payload_witness :
  at_path sample_payload ["instances"; "victim"; "enabled"] = Some (JBool false).
Proof.
  apply (validated_slots_reflect_payload sample_isValidIP sample_payload
           (sample_lab (sample_slot "1.1.1.1" "siem" true) (SlotDisabled Disabled)
                       (sample_slot "3.3.3.3" "kali" true))
           ltac:(vm_compute; reflexivity) "victim" (SlotDisabled Disabled)).
  simpl. auto.
Defined.
